(** * MongoToSql: schema inference, type resolution and batch loading

    A shallow embedding of [MongoToSql.py].  Python values are a tagged
    union, Python dictionaries are insertion-ordered association lists,
    [KeyError] and sink errors are an explicit outcome type, and the SQL
    connection is an oracle over the history of calls made to it. *)

From Stdlib Require Import ZArith Lia.
From stdpp Require Import base decidable countable gmap sets list strings sorting pretty.

Open Scope Z_scope.
Set Warnings "-clear-no-such-hyp".

(** ** Python values *)

(** [decimal.Decimal] as its [as_tuple()] view. *)
Record Decimal := mkDecimal {
  dec_negative : bool;
  dec_coefficient : N;
  dec_exponent : Z
}.

(** The values a decoded BSON document can hold, one constructor per
    runtime class the program inspects.  Objects of library classes carry
    the results of the methods the program calls on them:
    [Decimal128.to_decimal()] (which may raise) together with
    [decimal.Decimal(str(value))], and [str(value)] for an object of any
    other class (which may raise as well). *)
#[warnings="-register-all"]
Inductive PyValue : Type :=
  | PyNone
  | PyBool (b : bool)
  | PyInt (n : Z)
  | PyInt64 (n : Z)
  | PyFloat (bits : Z)
  | PyDecimal128 (to_decimal : option Decimal) (from_text : Decimal)
  | PyDecimal (d : Decimal)
  | PyDatetime (micros : Z)
  | PyStr (s : string)
  | PyObjectId (hex : string)
  | PyList (items : list PyValue)
  | PyDict (items : list (string * PyValue))
  | PyBytes (data : list Byte.byte)
  | PyByteArray (data : list Byte.byte)
  | PyMemoryView (data : list Byte.byte)
  | PyOther (text : option string).

Inductive PyClass :=
  | NoneType | Cbool | Cint | CInt64 | Cfloat | CDecimal128 | CDecimal
  | Cdatetime | Cstr | CObjectId | Clist | Cdict | Cbytes | Cbytearray
  | Cmemoryview | Cobject.

Global Instance PyClass_eq_dec : EqDecision PyClass.
Proof. solve_decision. Defined.

Definition type_of (value : PyValue) : PyClass :=
  match value with
  | PyNone => NoneType
  | PyBool _ => Cbool
  | PyInt _ => Cint
  | PyInt64 _ => CInt64
  | PyFloat _ => Cfloat
  | PyDecimal128 _ _ => CDecimal128
  | PyDecimal _ => CDecimal
  | PyDatetime _ => Cdatetime
  | PyStr _ => Cstr
  | PyObjectId _ => CObjectId
  | PyList _ => Clist
  | PyDict _ => Cdict
  | PyBytes _ => Cbytes
  | PyByteArray _ => Cbytearray
  | PyMemoryView _ => Cmemoryview
  | PyOther _ => Cobject
  end.

(** [bool] and [bson.Int64] are subclasses of [int]; the other classes
    the program tests are unrelated to each other. *)
Definition issubclass (c d : PyClass) : bool :=
  match c, d with
  | Cbool, Cint => true
  | CInt64, Cint => true
  | _, _ => bool_decide (c = d)
  end.

Definition isinstance (value : PyValue) (c : PyClass) : bool :=
  issubclass (type_of value) c.

Definition is_None (value : PyValue) : bool :=
  match value with PyNone => true | _ => false end.

(** [int(value)], asked only of instances of [int]. *)
Definition py_int (value : PyValue) : Z :=
  match value with
  | PyInt n => n
  | PyInt64 n => n
  | PyBool b => if b then 1 else 0
  | _ => 0
  end.

(** [str(value)] where the model carries a text; [None] when it raises. *)
Definition py_str (value : PyValue) : option string :=
  match value with
  | PyStr s => Some s
  | PyObjectId hex => Some hex
  | PyOther text => text
  | _ => None
  end.

(** [len(value)] of a [str]. *)
Definition py_len (value : PyValue) : nat :=
  match value with
  | PyStr s => String.length s
  | _ => 0%nat
  end.

(** ** Exceptions *)

Inductive PyExn := KeyError (key : string) | SinkError.

Inductive Outcome (A : Type) : Type :=
  | Returned (a : A)
  | Raised (e : PyExn).
Arguments Returned {A} a.
Arguments Raised {A} e.

Global Instance Outcome_ret : MRet Outcome := fun A a => Returned a.
Global Instance Outcome_bind : MBind Outcome := fun A B f m =>
  match m with
  | Returned a => f a
  | Raised e => Raised e
  end.

(** ** Dictionaries: insertion-ordered, as Python's [dict] *)

Module Dict.
Definition t (V : Type) : Type := list (string * V).

Section Ops.
Context {V : Type}.

Fixpoint get (k : string) (d : t V) : option V :=
  match d with
  | [] => None
  | (k', v) :: d' => if bool_decide (k = k') then Some v else get k d'
  end.

(** [k in d] *)
Definition mem (k : string) (d : t V) : bool :=
  match get k d with Some _ => true | None => false end.

(** [d[k]] *)
Definition item (k : string) (d : t V) : Outcome V :=
  match get k d with
  | Some v => Returned v
  | None => Raised (KeyError k)
  end.

(** [d[k] = v]: an existing key keeps its position, a new key goes
    last. *)
Fixpoint set (k : string) (v : V) (d : t V) : t V :=
  match d with
  | [] => [(k, v)]
  | (k', v') :: d' =>
      if bool_decide (k = k') then (k, v) :: d' else (k', v') :: set k v d'
  end.

Definition keys (d : t V) : list string := map fst d.
Definition items (d : t V) : list (string * V) := d.
End Ops.
End Dict.

Abbreviation Doc := (Dict.t PyValue).

(** ** Field statistics *)

Inductive TypeTag :=
  | TNull | TBool | TInt | TFloat | TDecimal | TDatetime | TStr
  | TObjectId | TJson | TBytes.

Global Instance TypeTag_eq_dec : EqDecision TypeTag.
Proof. solve_decision. Defined.

Definition tag_index (t : TypeTag) : nat :=
  match t with
  | TNull => 0 | TBool => 1 | TInt => 2 | TFloat => 3 | TDecimal => 4
  | TDatetime => 5 | TStr => 6 | TObjectId => 7 | TJson => 8 | TBytes => 9
  end%nat.

Definition tag_of_index (n : nat) : option TypeTag :=
  match n with
  | 0 => Some TNull | 1 => Some TBool | 2 => Some TInt | 3 => Some TFloat
  | 4 => Some TDecimal | 5 => Some TDatetime | 6 => Some TStr
  | 7 => Some TObjectId | 8 => Some TJson | 9 => Some TBytes
  | _ => None
  end%nat.

Global Instance TypeTag_countable : Countable TypeTag.
Proof.
  apply (inj_countable tag_index tag_of_index).
  intros []; reflexivity.
Defined.

(** The name each tag has in the program. *)
Definition tag_name (t : TypeTag) : string :=
  match t with
  | TNull => "null" | TBool => "bool" | TInt => "int" | TFloat => "float"
  | TDecimal => "decimal" | TDatetime => "datetime" | TStr => "str"
  | TObjectId => "objectid" | TJson => "json" | TBytes => "bytes"
  end.

Record FieldStats := mkFieldStats {
  types : gset TypeTag;
  count : nat;
  int_min : option Z;
  int_max : option Z;
  max_str_len : nat;
  nullable : option bool
}.

Abbreviation Stats := (Dict.t FieldStats).

(** The record the scanner creates for a key it has not seen; the
    ["nullable"] entry is added after the scan. *)
Definition new_field_stats : FieldStats :=
  {| types := ∅; count := 0; int_min := None; int_max := None;
     max_str_len := 0; nullable := None |}.

Definition add_type (t : TypeTag) (st : FieldStats) : FieldStats :=
  {| types := {[ t ]} ∪ types st; count := count st;
     int_min := int_min st; int_max := int_max st;
     max_str_len := max_str_len st; nullable := nullable st |}.

Definition incr_count (st : FieldStats) : FieldStats :=
  {| types := types st; count := S (count st);
     int_min := int_min st; int_max := int_max st;
     max_str_len := max_str_len st; nullable := nullable st |}.

Definition set_int_min (v : Z) (st : FieldStats) : FieldStats :=
  {| types := types st; count := count st;
     int_min := Some v; int_max := int_max st;
     max_str_len := max_str_len st; nullable := nullable st |}.

Definition set_int_max (v : Z) (st : FieldStats) : FieldStats :=
  {| types := types st; count := count st;
     int_min := int_min st; int_max := Some v;
     max_str_len := max_str_len st; nullable := nullable st |}.

Definition set_max_str_len (n : nat) (st : FieldStats) : FieldStats :=
  {| types := types st; count := count st;
     int_min := int_min st; int_max := int_max st;
     max_str_len := n; nullable := nullable st |}.

Definition set_nullable (b : bool) (st : FieldStats) : FieldStats :=
  {| types := types st; count := count st;
     int_min := int_min st; int_max := int_max st;
     max_str_len := max_str_len st; nullable := Some b |}.

(** ** Configuration constants *)

Record Config := mkConfig {
  ReCreateIfExists : Z;
  SAMPLE_SIZE : option Z;
  BATCH_INSERT : Z;
  DECIMAL_PRECISION : Z;
  DECIMAL_SCALE : Z
}.

Definition module_config : Config :=
  {| ReCreateIfExists := 1; SAMPLE_SIZE := Some 1000; BATCH_INSERT := 500;
     DECIMAL_PRECISION := 38; DECIMAL_SCALE := 18 |}.

Definition INT32_MIN : Z := - 2 ^ 31.
Definition INT32_MAX : Z := 2 ^ 31 - 1.
Definition INT64_MIN : Z := - 2 ^ 63.
Definition INT64_MAX : Z := 2 ^ 63 - 1.

(** ** analyze_collection_schema *)

(** The type detection of one value: the branch taken adds one tag and
    does the bookkeeping of that tag. *)
Definition detect_type (value : PyValue) (st : FieldStats) : FieldStats :=
  if is_None value then add_type TNull st
  else if isinstance value Cbool then add_type TBool st
  else if isinstance value CInt64
          || (isinstance value Cint && negb (isinstance value Cbool)) then
    let st := add_type TInt st in
    let v := py_int value in
    let st :=
      match int_min st with
      | None => set_int_min v st
      | Some m => if v <? m then set_int_min v st else st
      end in
    match int_max st with
    | None => set_int_max v st
    | Some m => if v >? m then set_int_max v st else st
    end
  else if isinstance value Cfloat then add_type TFloat st
  else if isinstance value CDecimal128 || isinstance value CDecimal then
    add_type TDecimal st
  else if isinstance value Cdatetime then add_type TDatetime st
  else if isinstance value Cstr then
    let st := add_type TStr st in
    set_max_str_len (Nat.max (max_str_len st) (py_len value)) st
  else if isinstance value CObjectId then add_type TObjectId st
  else if isinstance value Clist || isinstance value Cdict then
    add_type TJson st
  else if isinstance value Cbytes || isinstance value Cbytearray
          || isinstance value Cmemoryview then
    add_type TBytes st
  else
    let st := add_type TStr st in
    match py_str value with
    | Some s => set_max_str_len (Nat.max (max_str_len st) (String.length s)) st
    | None => st
    end.

(** The tag [detect_type] adds, by the same chain of tests. *)
Definition classify (value : PyValue) : TypeTag :=
  if is_None value then TNull
  else if isinstance value Cbool then TBool
  else if isinstance value CInt64
          || (isinstance value Cint && negb (isinstance value Cbool)) then TInt
  else if isinstance value Cfloat then TFloat
  else if isinstance value CDecimal128 || isinstance value CDecimal then
    TDecimal
  else if isinstance value Cdatetime then TDatetime
  else if isinstance value Cstr then TStr
  else if isinstance value CObjectId then TObjectId
  else if isinstance value Clist || isinstance value Cdict then TJson
  else if isinstance value Cbytes || isinstance value Cbytearray
          || isinstance value Cmemoryview then TBytes
  else TStr.

(** First loop over a document: [if key not in stats: stats[key] = {...}]. *)
Definition ensure_key (stats : Stats) (key : string) : Stats :=
  if negb (Dict.mem key stats) then Dict.set key new_field_stats stats
  else stats.

(** Second loop over a document: [st = stats[key]], then the updates of
    [st] in place. *)
Definition update_field (stats : Stats) (kv : string * PyValue)
  : Outcome Stats :=
  st ← Dict.item kv.1 stats;
  mret (Dict.set kv.1 (detect_type kv.2 (incr_count st)) stats).

Fixpoint update_fields (stats : Stats) (kvs : list (string * PyValue))
  : Outcome Stats :=
  match kvs with
  | [] => mret stats
  | kv :: kvs' => stats' ← update_field stats kv; update_fields stats' kvs'
  end.

Definition scan_doc (stats : Stats) (doc : Doc) : Outcome Stats :=
  update_fields (foldl ensure_key stats (Dict.keys doc)) (Dict.items doc).

(** [sample_size and sample_size > 0 and i >= sample_size] *)
Definition sample_exhausted (sample_size : option Z) (i : nat) : bool :=
  match sample_size with
  | None => false
  | Some n => negb (n =? 0) && (n >? 0) && (Z.of_nat i >=? n)
  end.

(** The [for i, doc in enumerate(cursor)] loop. *)
Fixpoint scan_loop (sample_size : option Z) (i : nat) (cursor : list Doc)
    (stats : Stats) (total_docs : nat) : Outcome (Stats * nat) :=
  match cursor with
  | [] => mret (stats, total_docs)
  | doc :: cursor' =>
      if sample_exhausted sample_size i then mret (stats, total_docs)
      else
        stats' ← scan_doc stats doc;
        scan_loop sample_size (S i) cursor' stats' (S total_docs)
  end.

(** [st["nullable"] = st["count"] < total_docs] for every field. *)
Definition mark_nullable (total_docs : nat) (stats : Stats) : Stats :=
  map (fun kst : string * FieldStats =>
         (kst.1, set_nullable (bool_decide (count kst.2 < total_docs)%nat) kst.2))
      stats.

Definition analyze_collection_schema (collection : list Doc)
    (sample_size : option Z) : Outcome (Stats * nat) :=
  '(stats, total_docs) ← scan_loop sample_size 0 collection [] 0%nat;
  mret (mark_nullable total_docs stats, total_docs).

(** ** sql_type_from_stats *)

Section Resolver.
Variable cfg : Config.

Definition sql_type_from_stats (st : FieldStats) : string :=
  let types := types st in
  if bool_decide (types = {[ TNull ]}) then "NVARCHAR(MAX)"
  else if bool_decide (TJson ∈ types) then "NVARCHAR(MAX)"
  else if bool_decide (types = {[ TBytes ]}) then "VARBINARY(MAX)"
  else if bool_decide (types = {[ TObjectId ]})
          || (bool_decide (TObjectId ∈ types)
              && bool_decide (size types = 1%nat)) then "NVARCHAR(24)"
  else if bool_decide (types = {[ TBool ]}) then "BIT"
  else if bool_decide (types = {[ TDatetime ]}) then "DATETIME2"
  else if bool_decide (TDecimal ∈ types)
          && bool_decide (types ⊆ {[ TDecimal; TInt ]}) then
    "DECIMAL(" +:+ pretty (DECIMAL_PRECISION cfg) +:+ ","
      +:+ pretty (DECIMAL_SCALE cfg) +:+ ")"
  else if bool_decide (TFloat ∈ types) then "FLOAT"
  else if bool_decide (types = {[ TInt ]})
          || bool_decide (types = {[ TInt; TNull ]}) then
    match int_min st, int_max st with
    | Some lo, Some hi =>
        if (INT32_MIN <=? lo) && (lo <=? hi) && (hi <=? INT32_MAX) then "INT"
        else if (INT64_MIN <=? lo) && (lo <=? hi) && (hi <=? INT64_MAX) then
          "BIGINT"
        else "DECIMAL(" +:+ pretty (DECIMAL_PRECISION cfg) +:+ ",0)"
    | _, _ => "BIGINT"
    end
  else if bool_decide (types ⊆ {[ TStr; TNull ]}) then
    (* [st.get("max_str_len", 0) or 0]: the entry is always present *)
    let maxlen := max_str_len st in
    if (maxlen <=? 1)%nat then "NCHAR(1)"
    else if (maxlen <=? 255)%nat then "NVARCHAR(255)"
    else "NVARCHAR(MAX)"
  else "NVARCHAR(MAX)".

(** ** build_create_table_statement *)

Definition nl : string := String (Ascii.ascii_of_nat 10) "".

Definition column_definition (c : string * string) : string :=
  "[" +:+ c.1 +:+ "] " +:+ c.2 +:+ " NULL".

Definition build_create_table_statement (table_name : string)
    (schema_map : Dict.t string) : string :=
  let cols := map column_definition (Dict.items schema_map) in
  let cols_sql := String.concat ("," +:+ nl +:+ "  ") cols in
  if bool_decide (ReCreateIfExists cfg = 1) then
    nl +:+ "IF OBJECT_ID(N'dbo." +:+ table_name +:+ "', 'U') IS NOT NULL" +:+ nl
    +:+ "    DROP TABLE [dbo].[" +:+ table_name +:+ "];" +:+ nl
    +:+ "CREATE TABLE [dbo].[" +:+ table_name +:+ "] (" +:+ nl
    +:+ "  " +:+ cols_sql +:+ nl
    +:+ ");" +:+ nl
  else
    nl +:+ "IF OBJECT_ID(N'dbo." +:+ table_name +:+ "', 'U') IS NULL" +:+ nl
    +:+ "BEGIN" +:+ nl
    +:+ "  CREATE TABLE [dbo].[" +:+ table_name +:+ "] (" +:+ nl
    +:+ "  " +:+ cols_sql +:+ nl
    +:+ "  );" +:+ nl
    +:+ "END" +:+ nl.
End Resolver.

(** ** The SQL connection

    The connection is outside the program: whether a call raises is
    decided by the sink from the calls made so far and the call itself. *)

Inductive SinkCall :=
  | Execute (stmt : string) (params : list PyValue)
  | Commit.

Record SinkEvent := mkEvent { call : SinkCall; raised : bool }.

Definition Sink : Type := list SinkEvent → SinkCall → bool.

(** A computation that talks to the sink: from the events so far to the
    events afterwards and a result or a propagating exception. *)
Definition Run (A : Type) : Type := list SinkEvent → list SinkEvent * Outcome A.

Global Instance Run_ret : MRet Run := fun A a h => (h, Returned a).
Global Instance Run_bind : MBind Run := fun A B f m h =>
  match m h with
  | (h', Returned a) => f a h'
  | (h', Raised e) => (h', Raised e)
  end.

Definition lift {A} (o : Outcome A) : Run A := fun h => (h, o).

(** [try: body except Exception: handler] *)
Definition try_except {A} (body handler : Run A) : Run A := fun h =>
  match body h with
  | (h', Returned a) => (h', Returned a)
  | (h', Raised _) => handler h'
  end.

(** ** convert_value_for_sql and create_table_and_insert *)

Section Loader.
Variable cfg : Config.
(** [json.dumps(value, default=str)], a function of the library, taken
    as it is: total on decoded documents. *)
Variable json_dumps : PyValue → string.
Variable sink : Sink.

Definition sink_call (c : SinkCall) : Run unit := fun h =>
  let r := sink h c in
  (h ++ [ {| call := c; raised := r |} ],
   if r then Raised SinkError else Returned tt).

(** The clauses follow the order of the [isinstance] tests; the classes
    tested are pairwise unrelated. *)
Definition convert_value_for_sql (value : PyValue) : PyValue :=
  match value with
  | PyNone => PyNone
  | PyObjectId hex => PyStr hex
  | PyDecimal128 (Some d) _ => PyDecimal d
  | PyDecimal128 None d => PyDecimal d
  | PyDecimal _ => value
  | PyList _ | PyDict _ => PyStr (json_dumps value)
  | PyBytes _ => value
  | PyByteArray data => PyBytes data
  | PyMemoryView data => PyBytes data
  | PyDatetime _ => value
  | _ => value
  end.

(** [doc.get(c)] *)
Definition doc_get (c : string) (doc : Doc) : PyValue :=
  default PyNone (Dict.get c doc).

Definition row_values (insert_cols : list string) (doc : Doc) : list PyValue :=
  map (fun c => convert_value_for_sql (doc_get c doc)) insert_cols.

(** The row of the [except] branch. *)
Definition safe_vals (values : list PyValue) : list PyValue :=
  map (fun v =>
         if isinstance v Cdict || isinstance v Clist
         then PyStr (json_dumps v) else v)
      values.

Definition insert_row (insert_stmt : string) (values : list PyValue)
  : Run unit :=
  try_except (sink_call (Execute insert_stmt values))
             (sink_call (Execute insert_stmt (safe_vals values))).

(** The [for doc in mongo_collection.find({})] loop; returns [rows]. *)
Fixpoint insert_loop (insert_stmt : string) (insert_cols : list string)
    (cursor : list Doc) (batch rows : nat) : Run nat :=
  match cursor with
  | [] => mret rows
  | doc :: cursor' =>
      let rows := S rows in
      insert_row insert_stmt (row_values insert_cols doc);;
      let batch := S batch in
      if bool_decide (Z.of_nat batch >= BATCH_INSERT cfg) then
        sink_call Commit;;
        insert_loop insert_stmt insert_cols cursor' 0 rows
      else insert_loop insert_stmt insert_cols cursor' batch rows
  end.

(** The ["_id"] entry written when the scan found none. *)
Definition synthesized_id : FieldStats :=
  {| types := {[ TObjectId ]}; count := 0; max_str_len := 24;
     int_min := None; int_max := None; nullable := Some true |}.

Definition ensure_id (stats : Stats) : Stats :=
  if negb (Dict.mem "_id" stats) then Dict.set "_id" synthesized_id stats
  else stats.

(** [sorted] on strings. *)
Definition sorted (l : list string) : list string := merge_sort String.le l.

Definition ordered_fields (stats : Stats) : list string :=
  "_id" :: sorted (filter (fun k => k ≠ "_id") (Dict.keys stats)).

Fixpoint build_schema_map (stats : Stats) (fields : list string)
    (schema_map : Dict.t string) : Outcome (Dict.t string) :=
  match fields with
  | [] => mret schema_map
  | field :: fields' =>
      st ← Dict.item field stats;
      build_schema_map stats fields'
        (Dict.set field (sql_type_from_stats cfg st) schema_map)
  end.

Definition insert_statement (table_name : string) (insert_cols : list string)
  : string :=
  let placeholders := String.concat ", " (replicate (length insert_cols) "?") in
  let columns_sql :=
    String.concat ", " (map (fun c => "[" +:+ c +:+ "]") insert_cols) in
  "INSERT INTO [dbo].[" +:+ table_name +:+ "] (" +:+ columns_sql
    +:+ ") VALUES (" +:+ placeholders +:+ ")".

(** Lines 226 to 239: the scan, the ["_id"] entry, the field order and
    the SQL type of every field. *)
Definition infer_schema (mongo_collection : list Doc)
    (sample_size : option Z) : Outcome (list string * Dict.t string) :=
  '(stats, total) ← analyze_collection_schema mongo_collection sample_size;
  let stats := ensure_id stats in
  let ordered_fields := ordered_fields stats in
  schema_map ← build_schema_map stats ordered_fields [];
  mret (ordered_fields, schema_map).

(** The inserts and the final commit; returns the row count the last
    line reports. *)
Definition insert_all (insert_stmt : string) (insert_cols : list string)
    (mongo_collection : list Doc) : Run nat :=
  rows ← insert_loop insert_stmt insert_cols mongo_collection 0 0;
  sink_call Commit;;
  mret rows.

Definition create_table_and_insert (mongo_collection : list Doc)
    (table_name : string) (sample_size : option Z) : Run nat :=
  '(ordered_fields, schema_map) ← lift (infer_schema mongo_collection sample_size);
  let create_stmt := build_create_table_statement cfg table_name schema_map in
  sink_call (Execute create_stmt []);;
  sink_call Commit;;
  let insert_cols := ordered_fields in
  let insert_stmt := insert_statement table_name insert_cols in
  insert_all insert_stmt insert_cols mongo_collection.
End Loader.

(** ** Vocabulary of the statements *)

(** The precedence of the classification as the specification words it:
    the tests are tried from the top, the first that holds decides, and a
    value none of them accepts is a string.  The integer test here is the
    plain [int] test: that booleans are not integers comes from the order
    alone. *)
Definition classification_precedence : list ((PyValue → bool) * TypeTag) :=
  [ (is_None, TNull);
    (fun v => isinstance v Cbool, TBool);
    (fun v => isinstance v Cint, TInt);
    (fun v => isinstance v Cfloat, TFloat);
    (fun v => isinstance v CDecimal128 || isinstance v CDecimal, TDecimal);
    (fun v => isinstance v Cdatetime, TDatetime);
    (fun v => isinstance v Cstr, TStr);
    (fun v => isinstance v CObjectId, TObjectId);
    (fun v => isinstance v Clist || isinstance v Cdict, TJson);
    (fun v => isinstance v Cbytes || isinstance v Cbytearray
              || isinstance v Cmemoryview, TBytes) ].

Definition classify_by_precedence (value : PyValue) : TypeTag :=
  match List.find (fun rule => rule.1 value) classification_precedence with
  | Some rule => rule.2
  | None => TStr
  end.

(** What one observation of a value does to the record of its field. *)
Definition observe (st : FieldStats) (value : PyValue) : FieldStats :=
  detect_type value (incr_count st).

(** The integer an observation brings to the bounds of its field, the
    length it brings to the maximum string length, and the bounds after
    it. *)
Definition observed_int (value : PyValue) : option Z :=
  match value with
  | PyInt n | PyInt64 n => Some n
  | _ => None
  end.

Definition observed_len (value : PyValue) : nat :=
  match value with
  | PyStr s | PyOther (Some s) => String.length s
  | _ => 0%nat
  end.

Definition lower_bound (bound seen : option Z) : option Z :=
  match seen, bound with
  | Some v, Some m => Some (Z.min v m)
  | Some v, None => Some v
  | None, _ => bound
  end.

Definition upper_bound (bound seen : option Z) : option Z :=
  match seen, bound with
  | Some v, Some m => Some (Z.max v m)
  | Some v, None => Some v
  | None, _ => bound
  end.

(** The values a document holds under a key, and those of a list of
    documents, in scanning order. *)
Definition values_at (key : string) (doc : Doc) : list PyValue :=
  omap (fun kv : string * PyValue =>
          if bool_decide (key = kv.1) then Some kv.2 else None) doc.

Definition observations (key : string) (docs : list Doc) : list PyValue :=
  docs ≫= values_at key.

(** The record of a field after the observations [vs], from the entry
    [o] it had before. *)
Definition aggregate (o : option FieldStats) (vs : list PyValue)
  : option FieldStats :=
  match vs with
  | [] => o
  | _ => Some (foldl observe (default new_field_stats o) vs)
  end.

(** The number of documents the scan takes from a cursor of [n]. *)
Definition sample_count (sample_size : option Z) (n : nat) : nat :=
  match sample_size with
  | Some s => if 0 <? s then Nat.min (Z.to_nat s) n else n
  | None => n
  end.

(** The sample: the documents the scan takes. *)
Definition sample (sample_size : option Z) (docs : list Doc) : list Doc :=
  take (sample_count sample_size (length docs)) docs.

(** Reading a trace: the number of rows inserted before each commit,
    counting from [k] rows. *)
Definition is_insert (e : SinkEvent) : bool :=
  match call e with
  | Execute _ _ => negb (raised e)
  | Commit => false
  end.

Fixpoint commit_points (k : nat) (trace : list SinkEvent) : list nat :=
  match trace with
  | [] => []
  | e :: trace' =>
      match call e with
      | Commit => k :: commit_points k trace'
      | Execute _ _ =>
          commit_points (if raised e then k else S k) trace'
      end
  end.

(** A sink that raises for direct attempts only: not on its first call,
    not on a commit, and not on the call after one that raised. *)
Definition raises_on_direct_only (sink : Sink) : Prop :=
  ∀ h c, sink h c = true →
         c ≠ Commit ∧ ∃ h0 e, h = h0 ++ [e] ∧ raised e = false.

(** An example sink: it raises for the insert that follows a commit, and
    for nothing else. *)
Definition raises_after_commit : Sink := fun h c =>
  match c, last h with
  | Execute _ _, Some {| call := Commit; raised := false |} => true
  | _, _ => false
  end.

(** An example sink that raises for every call. *)
Definition always_raises : Sink := fun _ _ => true.

(** Reading a trace: the calls that execute a statement. *)
Definition is_execute (e : SinkEvent) : bool :=
  match call e with
  | Execute _ _ => true
  | Commit => false
  end.

(** The integer bounds of a record are in order: when both are known the
    minimum is not above the maximum, as holds for the least and the
    greatest integer observed under a key. *)
Definition bounds_ordered (st : FieldStats) : Prop :=
  match int_min st, int_max st with
  | Some lo, Some hi => lo ≤ hi
  | _, _ => True
  end.

Global Instance bounds_ordered_dec (st : FieldStats) :
  Decision (bounds_ordered st).
Proof.
  unfold bounds_ordered. destruct (int_min st), (int_max st); apply _.
Defined.

(** ** main *)

(** [str.isspace] of one character, for the code points below 256. *)
Definition py_isspace (c : Ascii.ascii) : bool :=
  let n := Ascii.nat_of_ascii c in
  ((9 <=? n) && (n <=? 13) || (28 <=? n) && (n <=? 32)
   || (n =? 133) || (n =? 160))%nat.

Fixpoint lstrip (s : string) : string :=
  match s with
  | EmptyString => EmptyString
  | String c s' => if py_isspace c then lstrip s' else s
  end.

Definition rstrip (s : string) : string := String.rev (lstrip (String.rev s)).

(** [s.strip()] *)
Definition strip (s : string) : string := rstrip (lstrip s).

(** [s.split(sep)] for a separator of one character. *)
Fixpoint split (sep : Ascii.ascii) (s : string) : list string :=
  match s with
  | EmptyString => [EmptyString]
  | String c s' =>
      if bool_decide (c = sep) then EmptyString :: split sep s'
      else match split sep s' with
           | piece :: pieces => String c piece :: pieces
           | [] => [String c EmptyString]
           end
  end.

(** The character [";"]. *)
Definition semicolon : Ascii.ascii := Ascii.ascii_of_nat 59.

Definition COLLECTION_NAMES : string := "coll_1;coll_2;coll_3;coll_4".

Section Main.
Variable cfg : Config.
Variable json_dumps : PyValue → string.
Variable sink : Sink.
(** [mongo_db[coll_name].find({})]: the documents of a collection. *)
Variable mongo_db : string → list Doc.

(** The [for coll_name in ...] loop of [main]. *)
Fixpoint migrate_collections (names : list string) : Run unit :=
  match names with
  | [] => mret tt
  | coll_name :: names' =>
      let coll_name := strip coll_name in
      if bool_decide (coll_name = "") then migrate_collections names'
      else
        create_table_and_insert cfg json_dumps sink (mongo_db coll_name)
          coll_name (SAMPLE_SIZE cfg);;
        migrate_collections names'
  end.

(** The body of the [try] of [main], with the two connections open; the
    [finally] closes them and lets an exception pass. *)
Definition main (collection_names : string) : Run unit :=
  migrate_collections (split semicolon collection_names).
End Main.

(** The names [main] migrates: the pieces between the semicolons,
    stripped, the empty ones left out. *)
Definition collection_names_of (collection_names : string) : list string :=
  filter (fun name => name ≠ "") (strip <$> split semicolon collection_names).

(** Migrating collections one after the other, by their names as they
    are. *)
Fixpoint run_collections (cfg : Config) (json_dumps : PyValue → string)
    (sink : Sink) (mongo_db : string → list Doc) (names : list string)
  : Run unit :=
  match names with
  | [] => mret tt
  | name :: names' =>
      create_table_and_insert cfg json_dumps sink (mongo_db name) name
        (SAMPLE_SIZE cfg);;
      run_collections cfg json_dumps sink mongo_db names'
  end.

(** Reading a trace: the parameters of the calls that executed without
    raising, in order. *)
Definition executed_params (trace : list SinkEvent) : list (list PyValue) :=
  omap (fun e => match call e with
                 | Execute _ params => if raised e then None else Some params
                 | Commit => None
                 end) trace.

(** * Properties *)

(** Case analysis on every integer comparison of the goal. *)
Ltac by_leb :=
  repeat match goal with
         | |- context [(?a <=? ?b)%Z] => destruct (Z.leb_spec a b)
         | |- context [(?a <=? ?b)%nat] => destruct (Nat.leb_spec a b)
         end;
  simpl; try done; exfalso; lia.

(** ** The type resolver *)

Section ResolverFacts.
Variable cfg : Config.

(** What the integer branch returns, once the tag set selects it. *)
Lemma resolve_integer_tags (st : FieldStats) :
  types st = {[ TInt ]} ∨ types st = {[ TInt; TNull ]} →
  sql_type_from_stats cfg st =
    match int_min st, int_max st with
    | Some lo, Some hi =>
        if (INT32_MIN <=? lo) && (lo <=? hi) && (hi <=? INT32_MAX) then "INT"
        else if (INT64_MIN <=? lo) && (lo <=? hi) && (hi <=? INT64_MAX)
             then "BIGINT"
             else "DECIMAL(" +:+ pretty (DECIMAL_PRECISION cfg) +:+ ",0)"
    | _, _ => "BIGINT"
    end.
Proof.
  intros [Ht | Ht]; unfold sql_type_from_stats; rewrite Ht; reflexivity.
Qed.

(** Tag sets within {str, null}, the set {null} apart, reach the text
    branch. *)
Lemma resolve_text_tags (st : FieldStats) :
  types st ⊆ {[ TStr; TNull ]} → types st ≠ {[ TNull ]} →
  sql_type_from_stats cfg st =
    if (max_str_len st <=? 1)%nat then "NCHAR(1)"
    else if (max_str_len st <=? 255)%nat then "NVARCHAR(255)"
    else "NVARCHAR(MAX)".
Proof.
  intros Hsub Hne. unfold sql_type_from_stats.
  rewrite (bool_decide_eq_false_2 (types st = {[ TNull ]})) by done.
  rewrite (bool_decide_eq_false_2 (TJson ∈ types st)) by set_solver.
  rewrite (bool_decide_eq_false_2 (types st = {[ TBytes ]})) by set_solver.
  rewrite (bool_decide_eq_false_2 (types st = {[ TObjectId ]})) by set_solver.
  rewrite (bool_decide_eq_false_2 (TObjectId ∈ types st)) by set_solver.
  rewrite (bool_decide_eq_false_2 (types st = {[ TBool ]})) by set_solver.
  rewrite (bool_decide_eq_false_2 (types st = {[ TDatetime ]})) by set_solver.
  rewrite (bool_decide_eq_false_2 (TDecimal ∈ types st)) by set_solver.
  rewrite (bool_decide_eq_false_2 (TFloat ∈ types st)) by set_solver.
  rewrite (bool_decide_eq_false_2 (types st = {[ TInt ]})) by set_solver.
  rewrite (bool_decide_eq_false_2 (types st = {[ TInt; TNull ]})) by set_solver.
  rewrite (bool_decide_eq_true_2 (types st ⊆ {[ TStr; TNull ]})) by done.
  reflexivity.
Qed.
End ResolverFacts.

(** C2: a record whose tag set is exactly {decimal, null} fails the
    condition of the decimal rule and resolves to NVARCHAR(MAX). *)
Theorem C2_decimal_with_null_is_text (cfg : Config) (st : FieldStats) :
  types st = {[ TDecimal; TNull ]} →
  bool_decide (TDecimal ∈ types st)
    && bool_decide (types st ⊆ {[ TDecimal; TInt ]}) = false
  ∧ sql_type_from_stats cfg st = "NVARCHAR(MAX)".
Proof.
  intros Ht. unfold sql_type_from_stats. rewrite Ht. split; reflexivity.
Qed.

Lemma C2_decimal_with_null_witness :
  sql_type_from_stats module_config
    {| types := {[ TDecimal; TNull ]}; count := 2; int_min := None;
       int_max := None; max_str_len := 0; nullable := Some false |}
  = "NVARCHAR(MAX)".
Proof.
  apply (C2_decimal_with_null_is_text module_config
           {| types := {[ TDecimal; TNull ]}; count := 2; int_min := None;
              int_max := None; max_str_len := 0; nullable := Some false |}).
  reflexivity.
Defined.

(** C6, as the claim states it, fails: the tag set {null} lies within
    {str, null} and its maximum string length is 0, yet the record
    resolves to NVARCHAR(MAX), not NCHAR(1).  The record is the one the
    scanner builds for a field that only ever held null. *)
Lemma C6_only_null_counterexample :
  ∃ stats total st,
    analyze_collection_schema [ [("a", PyNone)] ] None = Returned (stats, total)
    ∧ Dict.get "a" stats = Some st
    ∧ types st ⊆ {[ TStr; TNull ]}
    ∧ (max_str_len st ≤ 1)%nat
    ∧ sql_type_from_stats module_config st ≠ "NCHAR(1)".
Proof.
  eexists _, _, _. split; [reflexivity |]. split; [reflexivity |].
  split; [| split].
  - cbn. set_solver.
  - cbn. lia.
  - intros E. vm_compute in E. discriminate E.
Qed.

(** C6 (amended): for a record whose tag set lies within {str, null} and
    is not exactly {null}, the resolver sizes the text by the maximum
    string length: at most 1 gives NCHAR(1), at most 255 gives
    NVARCHAR(255), more gives NVARCHAR(MAX); lengths 1, 255 and 256 are
    the boundaries.  The tag set {null} resolves to NVARCHAR(MAX). *)
Theorem C6_text_sizing (cfg : Config) (st : FieldStats) :
  (types st ⊆ {[ TStr; TNull ]} → types st ≠ {[ TNull ]} →
     ((max_str_len st ≤ 1)%nat → sql_type_from_stats cfg st = "NCHAR(1)")
     ∧ ((1 < max_str_len st ≤ 255)%nat →
        sql_type_from_stats cfg st = "NVARCHAR(255)")
     ∧ ((255 < max_str_len st)%nat →
        sql_type_from_stats cfg st = "NVARCHAR(MAX)")
     ∧ (max_str_len st = 1%nat → sql_type_from_stats cfg st = "NCHAR(1)")
     ∧ (max_str_len st = 255%nat →
        sql_type_from_stats cfg st = "NVARCHAR(255)")
     ∧ (max_str_len st = 256%nat →
        sql_type_from_stats cfg st = "NVARCHAR(MAX)"))
  ∧ (types st = {[ TNull ]} → sql_type_from_stats cfg st = "NVARCHAR(MAX)").
Proof.
  split.
  - intros Hsub Hne. rewrite (resolve_text_tags cfg st Hsub Hne).
    repeat split.
    + intros H. by_leb.
    + intros H. by_leb.
    + intros H. by_leb.
    + by intros ->.
    + by intros ->.
    + by intros ->.
  - intros Ht. unfold sql_type_from_stats. by rewrite Ht.
Qed.

Lemma C6_text_sizing_witness :
  sql_type_from_stats module_config
    {| types := {[ TStr; TNull ]}; count := 3; int_min := None;
       int_max := None; max_str_len := 256; nullable := Some true |}
  = "NVARCHAR(MAX)".
Proof.
  destruct (C6_text_sizing module_config
              {| types := {[ TStr; TNull ]}; count := 3; int_min := None;
                 int_max := None; max_str_len := 256; nullable := Some true |})
    as [H _].
  destruct H as (_ & _ & _ & _ & _ & H); [compute_done | compute_done |].
  apply H. reflexivity.
Defined.

(** ** The value classifier *)

(** The tag [classify] gives is the one tag the scanner adds. *)
Lemma detect_type_types (value : PyValue) (st : FieldStats) :
  types (detect_type value st) = {[ classify value ]} ∪ types st.
Proof.
  destruct value; cbn; repeat case_match; reflexivity.
Qed.

(** C5: the classifier is a total function that gives every value one
    tag, the one the first matching test of the precedence null, boolean,
    integer, float, decimal, date-time, string, unique identifier,
    composite, binary decides, with string as the fallback; it is the one
    tag the scanner adds for an observation; and a boolean, although an
    instance of [int], is tagged boolean, never integer. *)
Theorem C5_classify_first_match :
  (∀ v, classify v = classify_by_precedence v)
  ∧ (∀ v st, types (detect_type v st) = {[ classify v ]} ∪ types st)
  ∧ (∀ b, isinstance (PyBool b) Cint = true
          ∧ classify (PyBool b) = TBool ∧ classify (PyBool b) ≠ TInt)
  ∧ (∀ v, classify v = TInt → isinstance v Cbool = false)
  ∧ classify PyNone = TNull
  ∧ (∀ n, classify (PyInt n) = TInt)
  ∧ (∀ n, classify (PyInt64 n) = TInt)
  ∧ (∀ x, classify (PyFloat x) = TFloat)
  ∧ (∀ d t, classify (PyDecimal128 d t) = TDecimal)
  ∧ (∀ d, classify (PyDecimal d) = TDecimal)
  ∧ (∀ t, classify (PyDatetime t) = TDatetime)
  ∧ (∀ s, classify (PyStr s) = TStr)
  ∧ (∀ h, classify (PyObjectId h) = TObjectId)
  ∧ (∀ l, classify (PyList l) = TJson)
  ∧ (∀ l, classify (PyDict l) = TJson)
  ∧ (∀ b, classify (PyBytes b) = TBytes)
  ∧ (∀ b, classify (PyByteArray b) = TBytes)
  ∧ (∀ b, classify (PyMemoryView b) = TBytes)
  ∧ (∀ t, classify (PyOther t) = TStr).
Proof.
  split; [by intros [] |].
  split; [apply detect_type_types |].
  split; [done |].
  split; [by intros [] |].
  repeat split.
Qed.

(** ** The value converter *)

Section ConverterFacts.
Variable json_dumps : PyValue → string.

Lemma convert_not_composite (value : PyValue) :
  isinstance (convert_value_for_sql json_dumps value) Cdict
  || isinstance (convert_value_for_sql json_dumps value) Clist = false.
Proof. by destruct value as [| | | | |[]| | | | | | | | | |]. Qed.

Lemma safe_vals_converted (values : list PyValue) :
  safe_vals json_dumps (map (convert_value_for_sql json_dumps) values)
  = map (convert_value_for_sql json_dumps) values.
Proof.
  unfold safe_vals. induction values as [| v values IH]; [done |].
  cbn [map]. by rewrite convert_not_composite, IH.
Qed.

Lemma safe_vals_row_values (insert_cols : list string) (doc : Doc) :
  safe_vals json_dumps (row_values json_dumps insert_cols doc)
  = row_values json_dumps insert_cols doc.
Proof.
  unfold row_values.
  rewrite <- (map_map (fun c => doc_get c doc)
                      (convert_value_for_sql json_dumps)).
  apply safe_vals_converted.
Qed.
End ConverterFacts.

(** C10: the converter never returns a list or a dict, a list or dict
    input becoming its JSON text; so the row of the retry is the row of
    the direct attempt, and the retry executes the same statement with
    the same parameters. *)
Theorem C10_retry_repeats_the_row (json_dumps : PyValue → string) :
  (∀ v, isinstance (convert_value_for_sql json_dumps v) Clist = false
        ∧ isinstance (convert_value_for_sql json_dumps v) Cdict = false)
  ∧ (∀ l, convert_value_for_sql json_dumps (PyList l)
          = PyStr (json_dumps (PyList l)))
  ∧ (∀ l, convert_value_for_sql json_dumps (PyDict l)
          = PyStr (json_dumps (PyDict l)))
  ∧ (∀ insert_cols doc,
       safe_vals json_dumps (row_values json_dumps insert_cols doc)
       = row_values json_dumps insert_cols doc)
  ∧ (∀ sink insert_stmt insert_cols doc h,
       let attempt := Execute insert_stmt (row_values json_dumps insert_cols doc) in
       insert_row json_dumps sink insert_stmt
         (row_values json_dumps insert_cols doc) h
       = if sink h attempt
         then (h ++ [mkEvent attempt true]
                 ++ [mkEvent attempt (sink (h ++ [mkEvent attempt true]) attempt)],
               if sink (h ++ [mkEvent attempt true]) attempt
               then Raised SinkError else Returned tt)
         else (h ++ [mkEvent attempt false], Returned tt)).
Proof.
  split.
  { intros v. pose proof (convert_not_composite json_dumps v) as H.
    apply orb_false_elim in H. tauto. }
  split; [done |]. split; [done |].
  split; [apply safe_vals_row_values |].
  intros sink insert_stmt insert_cols doc h attempt.
  unfold insert_row, try_except, sink_call.
  rewrite safe_vals_row_values. fold attempt.
  destruct (sink h attempt); [| done].
  by rewrite <- app_assoc.
Qed.

(** ** Dictionaries *)

Section DictFacts.
Context {V : Type}.
Implicit Types (d : Dict.t V) (k : string) (v : V).

Lemma get_set k k' v d :
  Dict.get k (Dict.set k' v d)
  = if bool_decide (k = k') then Some v else Dict.get k d.
Proof.
  induction d as [| [k0 v0] d IH]; cbn.
  - by case_bool_decide.
  - repeat (case_bool_decide; cbn; simplify_eq); try done.
Qed.

Lemma mem_is_Some k d : Dict.mem k d = true ↔ is_Some (Dict.get k d).
Proof.
  unfold Dict.mem. destruct (Dict.get k d); split; try done.
Qed.

Lemma mem_false_None k d : Dict.mem k d = false ↔ Dict.get k d = None.
Proof. unfold Dict.mem. by destruct (Dict.get k d). Qed.

Lemma elem_of_keys k d : k ∈ Dict.keys d ↔ is_Some (Dict.get k d).
Proof.
  unfold Dict.keys. induction d as [| [k0 v0] d IH]; cbn.
  - rewrite elem_of_nil. split; [done | by intros [? ?]].
  - rewrite elem_of_cons, IH. case_bool_decide; naive_solver.
Qed.

Lemma set_fresh k v d : Dict.get k d = None → Dict.set k v d = d ++ [(k, v)].
Proof.
  induction d as [| [k0 v0] d IH]; cbn; [done |].
  case_bool_decide; [done |]. intros Hd. by rewrite IH.
Qed.

Lemma keys_set k v d :
  Dict.keys (Dict.set k v d)
  = if Dict.mem k d then Dict.keys d else Dict.keys d ++ [k].
Proof.
  unfold Dict.keys, Dict.mem. induction d as [| [k0 v0] d IH]; cbn; [done |].
  case_bool_decide; cbn; [by subst |].
  rewrite IH. by destruct (Dict.get k d).
Qed.

Lemma NoDup_keys_set k v d :
  NoDup (Dict.keys d) → NoDup (Dict.keys (Dict.set k v d)).
Proof.
  intros Hd. rewrite keys_set. destruct (Dict.mem k d) eqn:E; [done |].
  apply NoDup_app. split; [done |]. split; [| apply NoDup_singleton].
  intros x Hx ->%list_elem_of_singleton.
  apply elem_of_keys, mem_is_Some in Hx. congruence.
Qed.
End DictFacts.

(** ** Aggregation *)

Lemma FieldStats_eq (a b : FieldStats) :
  types a = types b → count a = count b → int_min a = int_min b →
  int_max a = int_max b → max_str_len a = max_str_len b →
  nullable a = nullable b → a = b.
Proof. destruct a, b; cbn; by intros -> -> -> -> -> ->. Qed.

Ltac by_ltb :=
  repeat match goal with
         | |- context [(?a <? ?b)%Z] => destruct (Z.ltb_spec a b)
         | |- context [(?a >? ?b)%Z] => rewrite (Z.gtb_ltb a b)
         end.

Ltac eval_isinstance :=
  repeat match goal with
         | |- context [isinstance ?v ?c] =>
             let b := eval compute in (isinstance v c) in
             change (isinstance v c) with b
         end.

(** One observation, field by field. *)
Lemma observe_unfold (st : FieldStats) (value : PyValue) :
  observe st value =
    {| types := {[ classify value ]} ∪ types st;
       count := S (count st);
       int_min := lower_bound (int_min st) (observed_int value);
       int_max := upper_bound (int_max st) (observed_int value);
       max_str_len := Nat.max (max_str_len st) (observed_len value);
       nullable := nullable st |}.
Proof.
  destruct st as [tys c lo hi len nl].
  destruct value as [| | | | | | | | | | | | | | |[]];
    unfold observe, detect_type, classify; eval_isinstance; cbn;
    try (destruct lo, hi; cbn; by_ltb; cbn; by_ltb);
    apply FieldStats_eq; cbn; try reflexivity; try (f_equal; lia); lia.
Qed.

(** Observations commute. *)
Lemma observe_comm (st : FieldStats) (v1 v2 : PyValue) :
  observe (observe st v1) v2 = observe (observe st v2) v1.
Proof.
  rewrite !observe_unfold. apply FieldStats_eq; cbn.
  - set_solver.
  - done.
  - destruct (observed_int v1), (observed_int v2), (int_min st);
      cbn; f_equal; lia.
  - destruct (observed_int v1), (observed_int v2), (int_max st);
      cbn; f_equal; lia.
  - lia.
  - done.
Qed.

Lemma foldl_observe_Permutation (vs vs' : list PyValue) :
  vs ≡ₚ vs' → ∀ st, foldl observe st vs = foldl observe st vs'.
Proof.
  induction 1 as [| v vs vs' _ IH | v1 v2 vs | vs1 vs2 vs3 _ IH1 _ IH2];
    intros st; cbn.
  - done.
  - apply IH.
  - by rewrite observe_comm.
  - by rewrite IH1.
Qed.

Lemma aggregate_Permutation (o : option FieldStats) (vs vs' : list PyValue) :
  vs ≡ₚ vs' → aggregate o vs = aggregate o vs'.
Proof.
  intros Hp. unfold aggregate.
  destruct vs as [| v vs], vs' as [| v' vs'].
  - done.
  - by apply Permutation_nil_cons in Hp.
  - symmetry in Hp. by apply Permutation_nil_cons in Hp.
  - f_equal. by apply foldl_observe_Permutation.
Qed.

Lemma aggregate_app (o : option FieldStats) (vs1 vs2 : list PyValue) :
  aggregate (aggregate o vs1) vs2 = aggregate o (vs1 ++ vs2).
Proof.
  destruct vs1 as [| v1 vs1]; [done |].
  destruct vs2 as [| v2 vs2]; [by rewrite app_nil_r |].
  change (Some (foldl observe (foldl observe (default new_field_stats o)
                                 (v1 :: vs1)) (v2 :: vs2))
          = Some (foldl observe (default new_field_stats o)
                    ((v1 :: vs1) ++ v2 :: vs2))).
  by rewrite foldl_app.
Qed.

Lemma observations_Permutation (key : string) (docs docs' : list Doc) :
  docs ≡ₚ docs' → observations key docs ≡ₚ observations key docs'.
Proof. intros Hp. unfold observations. by rewrite Hp. Qed.

(** ** The scanner *)

Lemma get_ensure_key (stats : Stats) (key k : string) :
  Dict.get k (ensure_key stats key)
  = if bool_decide (k = key)
    then Some (default new_field_stats (Dict.get k stats))
    else Dict.get k stats.
Proof.
  unfold ensure_key. destruct (Dict.mem key stats) eqn:E; cbn.
  - case_bool_decide; [subst | done].
    by apply mem_is_Some in E as [x ->].
  - rewrite get_set. case_bool_decide; [subst | done].
    apply mem_false_None in E. by rewrite E.
Qed.

Lemma get_ensure_keys (keys : list string) (stats : Stats) (k : string) :
  Dict.get k (foldl ensure_key stats keys)
  = if bool_decide (k ∈ keys)
    then Some (default new_field_stats (Dict.get k stats))
    else Dict.get k stats.
Proof.
  revert stats. induction keys as [| key keys IH]; intros stats; cbn.
  - by rewrite bool_decide_eq_false_2 by apply not_elem_of_nil.
  - rewrite IH, get_ensure_key.
    destruct (decide (k = key)) as [-> | Hne].
    + rewrite (bool_decide_eq_true_2 (key = key)) by done.
      rewrite (bool_decide_eq_true_2 (key ∈ key :: keys)) by set_solver.
      by case_bool_decide.
    + rewrite (bool_decide_eq_false_2 (k = key)) by done.
      rewrite (bool_decide_ext (k ∈ key :: keys) (k ∈ keys)) by set_solver.
      done.
Qed.

Lemma NoDup_ensure_keys (keys : list string) (stats : Stats) :
  NoDup (Dict.keys stats) → NoDup (Dict.keys (foldl ensure_key stats keys)).
Proof.
  revert stats. induction keys as [| key keys IH]; intros stats Hd; cbn; [done |].
  apply IH. unfold ensure_key. destruct (negb _); [| done].
  by apply NoDup_keys_set.
Qed.

Lemma values_at_nil (key : string) (doc : Doc) :
  values_at key doc = [] ↔ key ∉ Dict.keys doc.
Proof.
  unfold values_at, Dict.keys. induction doc as [| [k v] doc IH]; cbn.
  - split; [intros _; apply not_elem_of_nil | done].
  - rewrite not_elem_of_cons. case_bool_decide; cbn; [| tauto].
    split; [done | tauto].
Qed.

Lemma update_fields_spec (kvs : list (string * PyValue)) (stats : Stats) :
  (∀ kv, kv ∈ kvs → is_Some (Dict.get kv.1 stats)) →
  ∃ stats', update_fields stats kvs = Returned stats'
    ∧ Dict.keys stats' = Dict.keys stats
    ∧ ∀ k, Dict.get k stats'
           = (fun st => foldl observe st (values_at k kvs)) <$> Dict.get k stats.
Proof.
  revert stats. induction kvs as [| [k0 v0] kvs IH]; intros stats Hin.
  - exists stats. split; [done |]. split; [done |].
    intros k. by destruct (Dict.get k stats).
  - destruct (Hin (k0, v0)) as [st Hst]; [set_solver |]. cbn in Hst.
    destruct (IH (Dict.set k0 (observe st v0) stats)) as (stats' & Hrun & Hkeys & Hget).
    { intros kv Hkv. rewrite get_set. case_bool_decide; [done |].
      apply Hin. set_solver. }
    exists stats'. split; [| split].
    + cbn. unfold update_field, Dict.item. cbn. rewrite Hst. exact Hrun.
    + rewrite Hkeys, keys_set.
      by rewrite (proj2 (mem_is_Some k0 stats)) by by eexists.
    + intros k. rewrite Hget, get_set. unfold values_at. cbn.
      case_bool_decide; [subst; by rewrite Hst | done].
Qed.

Lemma scan_doc_spec (stats : Stats) (doc : Doc) :
  ∃ stats', scan_doc stats doc = Returned stats'
    ∧ (NoDup (Dict.keys stats) → NoDup (Dict.keys stats'))
    ∧ ∀ k, Dict.get k stats' = aggregate (Dict.get k stats) (values_at k doc).
Proof.
  unfold scan_doc.
  destruct (update_fields_spec (Dict.items doc)
              (foldl ensure_key stats (Dict.keys doc)))
    as (stats' & Hrun & Hkeys & Hget).
  { intros [k v] Hkv. rewrite get_ensure_keys.
    rewrite bool_decide_eq_true_2; [done |].
    unfold Dict.keys. apply list_elem_of_fmap. by exists (k, v). }
  exists stats'. split; [done |]. split.
  - intros Hd. rewrite Hkeys. by apply NoDup_ensure_keys.
  - intros k. rewrite Hget, get_ensure_keys. unfold Dict.items.
    case_bool_decide as Hk.
    + destruct (values_at k doc) as [| v vs] eqn:E; [| done].
      by apply values_at_nil in E.
    + apply values_at_nil in Hk. rewrite Hk.
      by destruct (Dict.get k stats).
Qed.

Lemma observations_cons (key : string) (doc : Doc) (docs : list Doc) :
  observations key (doc :: docs) = values_at key doc ++ observations key docs.
Proof. done. Qed.

Lemma scan_loop_all (docs : list Doc) (i : nat) (stats : Stats) (total : nat) :
  ∃ stats', scan_loop None i docs stats total
            = Returned (stats', (total + length docs)%nat)
    ∧ (NoDup (Dict.keys stats) → NoDup (Dict.keys stats'))
    ∧ ∀ k, Dict.get k stats'
           = aggregate (Dict.get k stats) (observations k docs).
Proof.
  revert i stats total. induction docs as [| doc docs IH]; intros i stats total.
  - exists stats. cbn. by rewrite Nat.add_0_r.
  - destruct (scan_doc_spec stats doc) as (stats1 & Hrun1 & Hd1 & Hget1).
    destruct (IH (S i) stats1 (S total)) as (stats' & Hrun & Hd & Hget).
    exists stats'. split; [| split].
    + cbn. rewrite Hrun1. cbn. rewrite Hrun. do 2 f_equal. cbn. lia.
    + auto.
    + intros k. by rewrite Hget, Hget1, aggregate_app.
Qed.

(** A positive sample size stops the loop; the documents after the stop
    are not looked at. *)
Lemma scan_loop_take (sample_size : option Z) (docs : list Doc) (i : nat)
    (stats : Stats) (total : nat) :
  scan_loop sample_size i docs stats total
  = scan_loop None i
      (take (match sample_size with
             | Some s => if 0 <? s then Nat.min (Z.to_nat s - i) (length docs)
                         else length docs
             | None => length docs
             end) docs)
      stats total.
Proof.
  revert i stats total. induction docs as [| doc docs IH]; intros i stats total.
  - by rewrite take_nil.
  - cbn [scan_loop length]. destruct sample_size as [s |]; cbn [sample_exhausted].
    + destruct (Z.ltb_spec 0 s) as [Hs | Hs].
      * rewrite (proj2 (Z.eqb_neq s 0)) by lia.
        rewrite (proj2 (Z.gtb_gt s 0)) by lia. cbn [negb andb].
        destruct (Z.geb_spec (Z.of_nat i) s) as [Hi | Hi].
        { by replace (Z.to_nat s - i)%nat with 0%nat by lia. }
        replace (Nat.min (Z.to_nat s - i) (S (length docs)))
          with (S (Nat.min (Z.to_nat s - S i) (length docs))) by lia.
        cbn [take scan_loop sample_exhausted].
        destruct (scan_doc stats doc) as [stats1 |]; cbn; [| done].
        by rewrite IH.
      * replace (negb (s =? 0) && (s >? 0)) with false.
        2:{ destruct (Z.eqb_spec s 0); [done |].
            cbn. symmetry. rewrite Z.gtb_ltb. apply Z.ltb_ge. lia. }
        cbn [andb take scan_loop sample_exhausted].
        destruct (scan_doc stats doc) as [stats1 |]; cbn; [| done].
        by rewrite IH.
    + cbn [take scan_loop sample_exhausted].
      destruct (scan_doc stats doc) as [stats1 |]; cbn; [| done].
      by rewrite IH.
Qed.

Lemma get_mark_nullable (total : nat) (stats : Stats) (k : string) :
  Dict.get k (mark_nullable total stats)
  = (fun st => set_nullable (bool_decide (count st < total)%nat) st)
      <$> Dict.get k stats.
Proof.
  unfold mark_nullable. induction stats as [| [k0 st0] stats IH]; cbn; [done |].
  by case_bool_decide.
Qed.

Lemma keys_mark_nullable (total : nat) (stats : Stats) :
  Dict.keys (mark_nullable total stats) = Dict.keys stats.
Proof.
  unfold mark_nullable, Dict.keys. rewrite map_map. by apply map_ext.
Qed.

Lemma length_sample (sample_size : option Z) (docs : list Doc) :
  length (sample sample_size docs) = sample_count sample_size (length docs).
Proof.
  unfold sample. rewrite length_take. unfold sample_count.
  destruct sample_size as [s |]; [destruct (0 <? s) |]; lia.
Qed.

Lemma scan_loop_sample (sample_size : option Z) (docs : list Doc)
    (stats : Stats) (total : nat) :
  scan_loop sample_size 0 docs stats total
  = scan_loop None 0 (sample sample_size docs) stats total.
Proof.
  rewrite scan_loop_take. unfold sample, sample_count.
  destruct sample_size as [s |]; [destruct (0 <? s) |];
    by rewrite ?Nat.sub_0_r.
Qed.

(** The scan returns; it scans the sample and nothing else. *)
Lemma analyze_collection_schema_spec (docs : list Doc) (sample_size : option Z) :
  ∃ stats,
    analyze_collection_schema docs sample_size
    = Returned (stats, sample_count sample_size (length docs))
    ∧ NoDup (Dict.keys stats)
    ∧ ∀ k, Dict.get k stats
           = (fun st => set_nullable
                          (bool_decide
                             (count st < sample_count sample_size (length docs))%nat)
                          st)
               <$> aggregate None (observations k (sample sample_size docs)).
Proof.
  unfold analyze_collection_schema. rewrite scan_loop_sample.
  destruct (scan_loop_all (sample sample_size docs) 0 [] 0)
    as (stats & Hrun & Hd & Hget).
  rewrite Hrun. cbn. rewrite length_sample.
  exists (mark_nullable (sample_count sample_size (length docs)) stats).
  split; [done |]. split.
  - rewrite keys_mark_nullable. apply Hd. constructor.
  - intros k. by rewrite get_mark_nullable, Hget.
Qed.

Lemma count_foldl_observe (vs : list PyValue) (st : FieldStats) :
  count (foldl observe st vs) = (count st + length vs)%nat.
Proof.
  revert st. induction vs as [| v vs IH]; intros st; cbn; [lia |].
  rewrite IH, observe_unfold. cbn. lia.
Qed.

Lemma count_aggregate (vs : list PyValue) (st : FieldStats) :
  aggregate None vs = Some st → count st = length vs.
Proof.
  destruct vs as [| v vs]; [by cbn |]. unfold aggregate.
  intros [= <-]. by rewrite count_foldl_observe, observe_unfold.
Qed.

Lemma aggregate_is_Some (vs : list PyValue) :
  is_Some (aggregate None vs) ↔ vs ≠ [].
Proof.
  destruct vs; cbn; split; try done.
Qed.

Lemma observations_nil (key : string) (docs : list Doc) :
  observations key docs ≠ [] ↔ ∃ doc, doc ∈ docs ∧ key ∈ Dict.keys doc.
Proof.
  induction docs as [| doc docs IH].
  - split; [done | intros (doc & Hin & _); by apply elem_of_nil in Hin].
  - rewrite observations_cons.
    destruct (decide (key ∈ Dict.keys doc)) as [Hk | Hk].
    + split; [intros _; exists doc; split; [left | done] |].
      intros _ E. apply app_eq_nil in E as [E _].
      by apply values_at_nil in E.
    + rewrite (proj2 (values_at_nil key doc) Hk). cbn. rewrite IH.
      split; intros (d & Hin & Hd).
      * exists d. split; [by right | done].
      * apply elem_of_cons in Hin as [-> | Hin]; [done | by exists d].
Qed.

(** C8: the scan returns; it takes the whole sequence when the sample
    size is absent, zero or negative and the first [sample_size] documents
    (all of them when there are fewer) otherwise, [total_docs] being the
    number taken; the fields of the result are those of the documents
    taken; and the ["nullable"] entry of each is true exactly when its
    count, the number of its observations, is below [total_docs]. *)
Theorem C8_sample_size_and_nullable (docs : list Doc) (sample_size : option Z) :
  ∃ stats total,
    analyze_collection_schema docs sample_size = Returned (stats, total)
    ∧ total = match sample_size with
              | None => length docs
              | Some s => if bool_decide (s ≤ 0) then length docs
                          else Nat.min (Z.to_nat s) (length docs)
              end
    ∧ analyze_collection_schema (take total docs) None = Returned (stats, total)
    ∧ (∀ k, k ∈ Dict.keys stats
            ↔ ∃ doc, doc ∈ take total docs ∧ k ∈ Dict.keys doc)
    ∧ (∀ k st, Dict.get k stats = Some st →
         nullable st = Some (bool_decide (count st < total)%nat)
         ∧ (nullable st = Some true ↔ (count st < total)%nat)
         ∧ count st = length (observations k (take total docs))).
Proof.
  destruct (analyze_collection_schema_spec docs sample_size)
    as (stats & Hrun & Hd & Hget).
  exists stats, (sample_count sample_size (length docs)).
  fold (sample sample_size docs).
  split; [done |]. split; [| split; [| split]].
  - unfold sample_count. destruct sample_size as [s |]; [| done].
    case_bool_decide; destruct (Z.ltb_spec 0 s); done || lia.
  - unfold analyze_collection_schema in *.
    rewrite scan_loop_sample in Hrun. by rewrite <- Hrun.
  - intros k. rewrite elem_of_keys, Hget, <- observations_nil.
    rewrite <- aggregate_is_Some.
    destruct (aggregate None _); cbn; split; intros [? ?]; done || by eexists.
  - intros k st Hst. rewrite Hget in Hst.
    destruct (aggregate None _) as [st0 |] eqn:E; [| done].
    cbn in Hst. injection Hst as <-. cbn.
    split; [done |]. split.
    + split; [intros [= H]; by apply bool_decide_eq_true_1 in H |].
      intros H. by rewrite bool_decide_eq_true_2.
    + by apply count_aggregate.
Qed.

(** ** The inferred schema *)

Section SchemaFacts.
Variable cfg : Config.

Lemma get_ensure_id (stats : Stats) (k : string) :
  Dict.get k (ensure_id stats)
  = if bool_decide (k = "_id")
    then Some (default synthesized_id (Dict.get k stats))
    else Dict.get k stats.
Proof.
  unfold ensure_id. destruct (Dict.mem "_id" stats) eqn:E; cbn.
  - case_bool_decide; [subst | done].
    by apply mem_is_Some in E as [x ->].
  - rewrite get_set. case_bool_decide; [subst | done].
    apply mem_false_None in E. by rewrite E.
Qed.

Lemma NoDup_keys_ensure_id (stats : Stats) :
  NoDup (Dict.keys stats) → NoDup (Dict.keys (ensure_id stats)).
Proof.
  intros Hd. unfold ensure_id. destruct (negb _); [| done].
  by apply NoDup_keys_set.
Qed.

Lemma ordered_fields_ensure_id (stats : Stats) :
  ordered_fields (ensure_id stats) = ordered_fields stats.
Proof.
  unfold ordered_fields, ensure_id.
  destruct (Dict.mem "_id" stats) eqn:E; cbn [negb]; [done |].
  rewrite keys_set, E, filter_app, filter_cons_False by naive_solver.
  by rewrite filter_nil, app_nil_r.
Qed.

Lemma ordered_fields_Permutation (stats stats' : Stats) :
  Dict.keys stats ≡ₚ Dict.keys stats' →
  ordered_fields stats = ordered_fields stats'.
Proof.
  intros Hp. unfold ordered_fields, sorted. f_equal.
  apply (Sorted_unique String.le); try apply Sorted_merge_sort; try apply _.
  by rewrite !merge_sort_Permutation, Hp.
Qed.

Lemma keys_Permutation (stats stats' : Stats) :
  NoDup (Dict.keys stats) → NoDup (Dict.keys stats') →
  (∀ k, Dict.get k stats = Dict.get k stats') →
  Dict.keys stats ≡ₚ Dict.keys stats'.
Proof.
  intros Hd Hd' Hget. apply NoDup_Permutation; [done | done |].
  intros k. by rewrite !elem_of_keys, Hget.
Qed.

Lemma build_schema_map_ext (stats stats' : Stats) (fields : list string)
    (schema_map : Dict.t string) :
  (∀ k, Dict.get k stats = Dict.get k stats') →
  build_schema_map cfg stats fields schema_map
  = build_schema_map cfg stats' fields schema_map.
Proof.
  intros Hget. revert schema_map.
  induction fields as [| f fields IH]; intros schema_map; cbn; [done |].
  unfold Dict.item. rewrite Hget.
  destruct (Dict.get f stats'); cbn; [apply IH | done].
Qed.

(** The schema map lists the fields in their order, each with the type
    its statistics resolve to. *)
Lemma build_schema_map_spec (stats : Stats) (fields : list string)
    (schema_map : Dict.t string) :
  NoDup fields →
  (∀ f, f ∈ fields → is_Some (Dict.get f stats) ∧ Dict.get f schema_map = None) →
  ∃ types_of_fields,
    build_schema_map cfg stats fields schema_map
    = Returned (schema_map ++ zip fields types_of_fields)
    ∧ Forall2 (fun f ty => sql_type_from_stats cfg <$> Dict.get f stats = Some ty)
              fields types_of_fields.
Proof.
  revert schema_map. induction fields as [| f fields IH];
    intros schema_map Hd Hin.
  - exists []. split; [by rewrite app_nil_r | constructor].
  - apply NoDup_cons in Hd as [Hf Hd].
    destruct (Hin f) as [[st Hst] Hnew]; [left |].
    destruct (IH (Dict.set f (sql_type_from_stats cfg st) schema_map) Hd)
      as (tys & Hrun & Htys).
    { intros f' Hf'. split; [apply Hin; by right |].
      rewrite get_set. case_bool_decide; [by subst |].
      apply Hin. by right. }
    exists (sql_type_from_stats cfg st :: tys). split.
    + cbn. unfold Dict.item. rewrite Hst. cbn. rewrite Hrun.
      rewrite (set_fresh _ _ _ Hnew). by rewrite <- app_assoc.
    + constructor; [by rewrite Hst | done].
Qed.

Lemma ordered_fields_NoDup (stats : Stats) :
  NoDup (Dict.keys stats) → NoDup (ordered_fields stats).
Proof.
  intros Hd. unfold ordered_fields, sorted. apply NoDup_cons. split.
  - rewrite merge_sort_Permutation, list_elem_of_filter. naive_solver.
  - rewrite merge_sort_Permutation. by apply NoDup_filter.
Qed.

Lemma elem_of_ordered_fields (stats : Stats) (k : string) :
  k ∈ ordered_fields stats ↔ k = "_id" ∨ k ∈ Dict.keys stats.
Proof.
  unfold ordered_fields, sorted.
  rewrite elem_of_cons, merge_sort_Permutation, list_elem_of_filter.
  destruct (decide (k = "_id")); naive_solver.
Qed.

(** The schema inference returns. *)
Lemma infer_schema_spec (docs : list Doc) (sample_size : option Z)
    (stats : Stats) (total : nat) :
  analyze_collection_schema docs sample_size = Returned (stats, total) →
  NoDup (Dict.keys stats) →
  ∃ types_of_fields,
    infer_schema cfg docs sample_size
    = Returned (ordered_fields stats,
                zip (ordered_fields stats) types_of_fields)
    ∧ Forall2 (fun f ty => sql_type_from_stats cfg
                             <$> Dict.get f (ensure_id stats) = Some ty)
              (ordered_fields stats) types_of_fields.
Proof.
  intros Hrun Hd. unfold infer_schema. rewrite Hrun.
  cbn -[ordered_fields ensure_id build_schema_map].
  rewrite ordered_fields_ensure_id.
  destruct (build_schema_map_spec (ensure_id stats) (ordered_fields stats) [])
    as (tys & Hbuild & Htys).
  - by apply ordered_fields_NoDup.
  - intros f Hf. split; [| done]. rewrite get_ensure_id.
    case_bool_decide; [done |].
    apply elem_of_ordered_fields in Hf as [? | Hf]; [done |].
    by apply elem_of_keys.
  - exists tys. rewrite Hbuild. by cbn.
Qed.
End SchemaFacts.

(** C3: scanning a permutation of the sample gives the same statistics for
    every field, the ["nullable"] entries included, the same document
    count, and the same schema: the same fields in the same order with the
    same SQL types.  Observations commute, and observing two runs of
    values one after the other is observing their concatenation. *)
Theorem C3_sample_order_irrelevant (cfg : Config) (docs docs' : list Doc)
    (sample_size : option Z) :
  sample sample_size docs ≡ₚ sample sample_size docs' →
  (∃ stats stats' total fields schema_map,
     analyze_collection_schema docs sample_size = Returned (stats, total)
     ∧ analyze_collection_schema docs' sample_size = Returned (stats', total)
     ∧ (∀ k, Dict.get k stats = Dict.get k stats')
     ∧ infer_schema cfg docs sample_size = Returned (fields, schema_map)
     ∧ infer_schema cfg docs' sample_size = Returned (fields, schema_map))
  ∧ (∀ st v1 v2, observe (observe st v1) v2 = observe (observe st v2) v1)
  ∧ (∀ o vs1 vs2, aggregate (aggregate o vs1) vs2 = aggregate o (vs1 ++ vs2)).
Proof.
  intros Hp. split; [| split; [apply observe_comm | apply aggregate_app]].
  destruct (analyze_collection_schema_spec docs sample_size)
    as (stats & Hrun & Hd & Hget).
  destruct (analyze_collection_schema_spec docs' sample_size)
    as (stats' & Hrun' & Hd' & Hget').
  assert (sample_count sample_size (length docs)
          = sample_count sample_size (length docs')) as Htotal.
  { rewrite <- !length_sample. by rewrite Hp. }
  rewrite <- Htotal in Hrun', Hget'.
  assert (∀ k, Dict.get k stats = Dict.get k stats') as Heq.
  { intros k. rewrite Hget, Hget'. f_equal.
    by apply aggregate_Permutation, observations_Permutation. }
  destruct (infer_schema_spec cfg docs sample_size stats _ Hrun Hd)
    as (tys & Hschema & _).
  exists stats, stats', (sample_count sample_size (length docs)),
    (ordered_fields stats), (zip (ordered_fields stats) tys).
  repeat (split; [done |]).
  unfold infer_schema in *. rewrite Hrun'. rewrite Hrun in Hschema.
  cbn -[ordered_fields ensure_id build_schema_map] in *.
  etransitivity; [| exact Hschema].
  rewrite !ordered_fields_ensure_id.
  rewrite <- (ordered_fields_Permutation stats stats')
    by by apply keys_Permutation.
  rewrite (build_schema_map_ext cfg (ensure_id stats') (ensure_id stats));
    [done |].
  intros k. by rewrite !get_ensure_id, Heq.
Qed.

(** ** The batch loader *)

Section LoaderFacts.
Variable cfg : Config.
Variable json_dumps : PyValue → string.
Variable sink : Sink.
Variable insert_stmt : string.
Variable insert_cols : list string.

Local Abbreviation insert_row' := (insert_row json_dumps sink insert_stmt).
Local Abbreviation insert_loop' := (insert_loop cfg json_dumps sink insert_stmt insert_cols).
Local Abbreviation insert_all' := (insert_all cfg json_dumps sink insert_stmt insert_cols).
Local Abbreviation safe_vals' := (safe_vals json_dumps).
Local Abbreviation row_values' := (row_values json_dumps insert_cols).

Lemma insert_row_direct (values : list PyValue) (h : list SinkEvent) :
  sink h (Execute insert_stmt values) = false →
  insert_row' values h
  = (h ++ [mkEvent (Execute insert_stmt values) false], Returned tt).
Proof. intros E. unfold insert_row', try_except, sink_call. by rewrite E. Qed.

Lemma insert_row_retry (values : list PyValue) (h : list SinkEvent) :
  sink h (Execute insert_stmt values) = true →
  let h1 := h ++ [mkEvent (Execute insert_stmt values) true] in
  let retry := Execute insert_stmt (safe_vals' values) in
  insert_row' values h
  = (h1 ++ [mkEvent retry (sink h1 retry)],
     if sink h1 retry then Raised SinkError else Returned tt).
Proof. intros E. unfold insert_row', try_except, sink_call. by rewrite E. Qed.

Lemma safe_vals_lookup (values : list PyValue) (i : nat) (v : PyValue) :
  values !! i = Some v →
  safe_vals' values !! i
  = Some (if isinstance v Cdict || isinstance v Clist
          then PyStr (json_dumps v) else v).
Proof.
  intros Hv. unfold safe_vals.
  change (map ?f values) with (f <$> values).
  by rewrite list_lookup_fmap, Hv.
Qed.

(** One turn of the loop. *)
Lemma insert_loop_cons (doc : Doc) (cursor : list Doc) (batch rows : nat)
    (h : list SinkEvent) :
  insert_loop' (doc :: cursor) batch rows h
  = match insert_row' (row_values' doc) h with
    | (h1, Returned _) =>
        if bool_decide (Z.of_nat (S batch) >= BATCH_INSERT cfg) then
          if sink h1 Commit
          then (h1 ++ [mkEvent Commit true], Raised SinkError)
          else insert_loop' cursor 0 (S rows) (h1 ++ [mkEvent Commit false])
        else insert_loop' cursor (S batch) (S rows) h1
    | (h1, Raised e) => (h1, Raised e)
    end.
Proof.
  cbn [insert_loop]. unfold mbind at 1, Run_bind.
  destruct (insert_row' _ h) as [h1 [[] | e]]; [| done].
  case_bool_decide; [| done].
  unfold mbind, Run_bind, sink_call. by destruct (sink h1 Commit).
Qed.

(** A prefix of the cursor that is loaded leaves the loop in some state
    from which the rest is loaded. *)
Lemma insert_loop_app (pre post : list Doc) (batch rows : nat)
    (h h1 : list SinkEvent) (n : nat) :
  insert_loop' pre batch rows h = (h1, Returned n) →
  ∃ batch1, insert_loop' (pre ++ post) batch rows h
            = insert_loop' post batch1 n h1.
Proof.
  revert batch rows h. induction pre as [| doc pre IH]; intros batch rows h.
  - cbn. intros [= -> ->]. by exists batch.
  - cbn [app]. rewrite !insert_loop_cons.
    destruct (insert_row' _ h) as [h0 [[] | e]]; [| done].
    case_bool_decide; [| apply IH].
    destruct (sink h0 Commit); [done | apply IH].
Qed.

Lemma filter_seq_ext (P Q : nat → Prop) `{!∀ m, Decision (P m)}
    `{!∀ m, Decision (Q m)} (a n : nat) :
  (∀ m, (a ≤ m)%nat → P m ↔ Q m) →
  filter P (seq a n) = filter Q (seq a n).
Proof.
  revert a. induction n as [| n IH]; intros a HPQ; [done |].
  cbn [seq]. rewrite !filter_cons.
  rewrite (IH (S a)) by (intros m Hm; apply HPQ; lia).
  destruct (decide (P a)) as [Hp | Hp], (decide (Q a)) as [Hq | Hq];
    try done; exfalso; apply (HPQ a) in Hp || apply (HPQ a) in Hq; done || lia.
Qed.

(** The events of one row: the direct attempt, and the retry when the
    direct attempt raised; a row that is inserted counts once. *)
Lemma insert_row_trace (values : list PyValue) (h : list SinkEvent) :
  ∃ row, (insert_row' values h).1 = h ++ row
    ∧ Forall (fun e => call e = Commit → raised e = false) row
    ∧ ∀ o, (insert_row' values h).2 = Returned o →
        (∀ j tl, commit_points j (row ++ tl) = commit_points (S j) tl)
        ∧ length (filter (fun e => is_insert e = true) row) = 1%nat.
Proof.
  destruct (sink h (Execute insert_stmt values)) eqn:E1.
  - pose proof (insert_row_retry _ _ E1) as Hr. cbv zeta in Hr.
    rewrite Hr. cbn [fst snd].
    eexists [_; _]. rewrite <- app_assoc. split; [reflexivity |].
    split; [repeat (constructor; [by cbn |]); constructor |].
    intros o. destruct (sink (h ++ _) _); [by intros [=] |]. by intros _.
  - rewrite (insert_row_direct _ _ E1). cbn [fst snd].
    eexists [_]. split; [reflexivity |].
    split; [repeat (constructor; [by cbn |]); constructor |]. by intros o _.
Qed.

(** A loop that returns has counted every document, inserted a row for
    each, and committed after each row that filled a batch. *)
Lemma insert_loop_returned (docs : list Doc) :
  ∀ (batch rows : nat) (h h' : list SinkEvent) (n k : nat),
    (batch < Z.to_nat (Z.max 1 (BATCH_INSERT cfg)))%nat →
    insert_loop' docs batch rows h = (h', Returned n) →
    n = (rows + length docs)%nat
    ∧ ∃ t, h' = h ++ t
      ∧ commit_points k t
        = filter (fun m => (m - k + batch) `mod` Z.to_nat (Z.max 1 (BATCH_INSERT cfg))
                           = 0)%nat
                 (seq (S k) (length docs))
      ∧ length (filter (fun e => is_insert e = true) t) = length docs
      ∧ Forall (fun e => call e = Commit → raised e = false) t.
Proof.
  induction docs as [| doc docs IH]; intros batch rows h h' n k Hb Hrun.
  - cbn in Hrun. injection Hrun as <- <-. split; [cbn; lia |].
    exists []. by rewrite app_nil_r.
  - rewrite insert_loop_cons in Hrun.
    destruct (insert_row_trace (row_values' doc) h)
      as (row & Hrow & Hrc & Hok).
    destruct (insert_row' (row_values' doc) h) as [h1 [[] | e]]; [| done].
    cbn [fst snd] in *. subst h1.
    destruct (Hok tt eq_refl) as [Hcp Hins].
    assert (∀ tl, length (filter (fun e => is_insert e = true) (row ++ tl))
                  = S (length (filter (fun e => is_insert e = true) tl)))
      as Hlen.
    { intros tl. by rewrite filter_app, length_app, Hins. }
    cbn [length seq]. rewrite filter_cons.
    case_bool_decide as Hfull.
    + (* the batch is full: commit *)
      destruct (sink (h ++ row) Commit) eqn:Ec; [done |].
      apply (IH _ _ _ _ _ (S k)) in Hrun as (-> & t & -> & Hpts & Hcnt & Hcm);
        [| lia].
      split; [lia |].
      exists (row ++ mkEvent Commit false :: t).
      rewrite <- !app_assoc. split; [done |].
      rewrite Hcp, Hlen. cbn [commit_points call filter].
      assert (S batch = Z.to_nat (Z.max 1 (BATCH_INSERT cfg))) as Hfill by lia.
      split; [| split].
      * rewrite decide_True.
        2:{ replace (S k - k + batch)%nat with (S batch) by lia.
            rewrite Hfill. apply Nat.Div0.mod_same. }
        f_equal. rewrite Hpts. apply filter_seq_ext. intros m Hm.
        replace (m - k + batch)%nat
          with (m - S k + 0 + 1 * Z.to_nat (Z.max 1 (BATCH_INSERT cfg)))%nat by lia.
        by rewrite Nat.Div0.mod_add.
      * rewrite filter_cons_False by done. by rewrite Hcnt.
      * apply Forall_app. split; [done |]. by constructor.
    + (* the batch goes on *)
      apply (IH _ _ _ _ _ (S k)) in Hrun as (-> & t & -> & Hpts & Hcnt & Hcm);
        [| lia].
      split; [lia |].
      exists (row ++ t). rewrite <- !app_assoc. split; [done |].
      rewrite Hcp, Hlen. split; [| split].
      * rewrite decide_False.
        2:{ replace (S k - k + batch)%nat with (S batch) by lia.
            rewrite Nat.mod_small by lia. done. }
        rewrite Hpts. apply filter_seq_ext. intros m Hm.
        by replace (m - k + batch)%nat with (m - S k + S batch)%nat by lia.
      * by rewrite Hcnt.
      * by apply Forall_app.
Qed.

Lemma insert_loop_extends (docs : list Doc) :
  ∀ (batch rows : nat) (h : list SinkEvent),
    ∃ t, (insert_loop' docs batch rows h).1 = h ++ t.
Proof.
  induction docs as [| doc docs IH]; intros batch rows h.
  - exists []. by rewrite app_nil_r.
  - rewrite insert_loop_cons.
    destruct (insert_row_trace (row_values' doc) h) as (row & Hrow & _).
    destruct (insert_row' (row_values' doc) h) as [h1 [[] | e]];
      cbn [fst] in Hrow; subst h1; [| by exists row].
    case_bool_decide.
    + destruct (sink (h ++ row) Commit).
      * eexists. cbn [fst]. by rewrite <- app_assoc.
      * destruct (IH 0%nat (S rows) ((h ++ row) ++ [mkEvent Commit false]))
          as [t Ht].
        eexists. rewrite Ht. by rewrite <- !app_assoc.
    + destruct (IH (S batch) (S rows) (h ++ row)) as [t Ht].
      eexists. rewrite Ht. by rewrite <- !app_assoc.
Qed.

Lemma insert_loop_returns (docs : list Doc) :
  raises_on_direct_only sink →
  ∀ (batch rows : nat) (h : list SinkEvent),
    ∃ h', insert_loop' docs batch rows h
          = (h', Returned (rows + length docs)%nat).
Proof.
  intros Hsink. induction docs as [| doc docs IH]; intros batch rows h.
  - exists h. cbn. by rewrite Nat.add_0_r.
  - rewrite insert_loop_cons.
    assert (∃ h1, insert_row' (row_values' doc) h = (h1, Returned tt))
      as [h1 ->].
    { destruct (sink h (Execute insert_stmt (row_values' doc))) eqn:E1.
      - pose proof (insert_row_retry _ _ E1) as Hr. cbv zeta in Hr.
        rewrite Hr. destruct (sink (h ++ _) _) eqn:E2; [| by eexists].
        apply Hsink in E2 as (_ & h0 & e & Heq & He).
        apply app_inj_tail in Heq as [_ <-]. done.
      - rewrite (insert_row_direct _ _ E1). by eexists. }
    replace (rows + length (doc :: docs))%nat
      with (S rows + length docs)%nat by (cbn; lia).
    case_bool_decide; [| apply IH].
    destruct (sink h1 Commit) eqn:Ec; [| apply IH].
    apply Hsink in Ec as [Hc _]. done.
Qed.

Lemma insert_all_unfold (docs : list Doc) (h : list SinkEvent) :
  insert_all' docs h
  = match insert_loop' docs 0 0 h with
    | (h1, Returned rows) =>
        if sink h1 Commit
        then (h1 ++ [mkEvent Commit true], Raised SinkError)
        else (h1 ++ [mkEvent Commit false], Returned rows)
    | (h1, Raised e) => (h1, Raised e)
    end.
Proof.
  unfold insert_all. unfold mbind at 1, Run_bind.
  destruct (insert_loop' docs 0 0 h) as [h1 [rows | e]]; [| done].
  unfold mbind, Run_bind, sink_call. by destruct (sink h1 Commit).
Qed.

Lemma commit_points_app (t1 t2 : list SinkEvent) (k : nat) :
  commit_points k (t1 ++ t2)
  = commit_points k t1
    ++ commit_points
         (k + length (filter (fun e => is_insert e = true) t1)) t2.
Proof.
  revert k. induction t1 as [| [[stmt ps |] r] t1 IH]; intros k.
  - cbn. by rewrite Nat.add_0_r.
  - cbn [app commit_points call raised]. rewrite IH, filter_cons.
    unfold is_insert at 2. cbn [call raised].
    destruct r; cbn [negb]; [done |].
    rewrite decide_True by done. cbn [length]. by rewrite Nat.add_succ_r.
  - cbn [app commit_points call]. rewrite IH, filter_cons_False by done.
    done.
Qed.
End LoaderFacts.

Lemma create_table_and_insert_unfold (cfg : Config)
    (json_dumps : PyValue → string) (sink : Sink) (docs : list Doc)
    (table_name : string) (sample_size : option Z) (fields : list string)
    (schema_map : Dict.t string) (h : list SinkEvent) :
  infer_schema cfg docs sample_size = Returned (fields, schema_map) →
  create_table_and_insert cfg json_dumps sink docs table_name sample_size h
  = let ddl := Execute (build_create_table_statement cfg table_name schema_map) [] in
    if sink h ddl then (h ++ [mkEvent ddl true], Raised SinkError)
    else if sink (h ++ [mkEvent ddl false]) Commit
         then (h ++ [mkEvent ddl false; mkEvent Commit true], Raised SinkError)
         else insert_all cfg json_dumps sink
                (insert_statement table_name fields) fields docs
                (h ++ [mkEvent ddl false; mkEvent Commit false]).
Proof.
  intros Hs. unfold create_table_and_insert, lift.
  unfold mbind at 1, Run_bind. rewrite Hs.
  unfold mbind at 1, Run_bind, sink_call at 1.
  destruct (sink h _); [done |].
  unfold mbind at 1, Run_bind, sink_call at 1.
  destruct (sink (h ++ _) Commit); by rewrite <- app_assoc.
Qed.

(** C4: a direct insert that does not raise is the only call of its row;
    one that raises is followed by exactly one more call, the same
    statement with the row in which every list or dict is replaced by its
    JSON text and every other value is kept; when that call raises too the
    exception leaves the loop at once: the documents after it are not
    touched, nothing is committed, and [create_table_and_insert] ends with
    the exception. *)
Theorem C4_one_retry_then_fatal (cfg : Config) (json_dumps : PyValue → string)
    (sink : Sink) (insert_stmt : string) :
  (∀ values h,
     sink h (Execute insert_stmt values) = false →
     insert_row json_dumps sink insert_stmt values h
     = (h ++ [mkEvent (Execute insert_stmt values) false], Returned tt))
  ∧ (∀ values h,
       sink h (Execute insert_stmt values) = true →
       let h1 := h ++ [mkEvent (Execute insert_stmt values) true] in
       let retry := Execute insert_stmt (safe_vals json_dumps values) in
       insert_row json_dumps sink insert_stmt values h
       = (h1 ++ [mkEvent retry (sink h1 retry)],
          if sink h1 retry then Raised SinkError else Returned tt))
  ∧ (∀ values,
       length (safe_vals json_dumps values) = length values
       ∧ ∀ i v, values !! i = Some v →
           safe_vals json_dumps values !! i
           = Some (if isinstance v Cdict || isinstance v Clist
                   then PyStr (json_dumps v) else v))
  ∧ (∀ insert_cols pre doc rest h h1 n,
       insert_loop cfg json_dumps sink insert_stmt insert_cols pre 0 0 h
       = (h1, Returned n) →
       let values := row_values json_dumps insert_cols doc in
       let h2 := h1 ++ [mkEvent (Execute insert_stmt values) true] in
       let retry := Execute insert_stmt (safe_vals json_dumps values) in
       sink h1 (Execute insert_stmt values) = true →
       sink h2 retry = true →
       insert_all cfg json_dumps sink insert_stmt insert_cols
         (pre ++ doc :: rest) h
       = (h2 ++ [mkEvent retry true], Raised SinkError))
  ∧ (∀ docs table_name sample_size insert_cols schema_map trace e,
       infer_schema cfg docs sample_size = Returned (insert_cols, schema_map) →
       let ddl := Execute (build_create_table_statement cfg table_name schema_map) [] in
       let h := [mkEvent ddl false; mkEvent Commit false] in
       sink [] ddl = false → sink [mkEvent ddl false] Commit = false →
       insert_all cfg json_dumps sink (insert_statement table_name insert_cols)
         insert_cols docs h = (trace, Raised e) →
       create_table_and_insert cfg json_dumps sink docs table_name sample_size []
       = (trace, Raised e)).
Proof.
  split; [apply insert_row_direct |].
  split; [apply insert_row_retry |].
  split.
  { intros values. split; [apply length_map | apply safe_vals_lookup]. }
  split.
  - intros insert_cols pre doc rest h h1 n Hpre values h2 retry E1 E2.
    rewrite insert_all_unfold.
    destruct (insert_loop_app cfg json_dumps sink insert_stmt insert_cols
                pre (doc :: rest) 0 0 h h1 n Hpre) as [batch1 ->].
    rewrite insert_loop_cons.
    pose proof (insert_row_retry json_dumps sink insert_stmt values h1 E1) as Hr.
    cbv zeta in Hr. fold values. rewrite Hr. fold h2 retry. by rewrite E2.
  - intros docs table_name sample_size insert_cols schema_map trace e Hs
      ddl h Hddl Hcommit Hrun.
    rewrite (create_table_and_insert_unfold _ _ _ _ _ _ _ _ _ Hs).
    cbv zeta. fold ddl. rewrite Hddl. cbn [app]. by rewrite Hcommit.
Qed.

(** C9: a run that returns reports as many rows as there are documents,
    has inserted one row per document, and has committed after every row
    whose number is a multiple of the batch size (of 1 when the configured
    size is below 1) and once more after the last row; no commit raised.
    A sink that raises for direct attempts only lets every run return,
    whichever rows needed the retry. *)
Theorem C9_batch_commits_and_row_count (cfg : Config)
    (json_dumps : PyValue → string) (sink : Sink) (docs : list Doc)
    (table_name : string) (sample_size : option Z) :
  (∀ trace rows,
     create_table_and_insert cfg json_dumps sink docs table_name sample_size []
     = (trace, Returned rows) →
     rows = length docs
     ∧ ∃ ddl load,
         trace = [mkEvent (Execute ddl []) false; mkEvent Commit false]
                 ++ load ++ [mkEvent Commit false]
         ∧ commit_points 0 (load ++ [mkEvent Commit false])
           = filter (fun m => m `mod` Z.to_nat (Z.max 1 (BATCH_INSERT cfg)) = 0)%nat
                    (seq 1 (length docs))
             ++ [length docs]
         ∧ length (filter (fun e => is_insert e = true) load) = length docs
         ∧ Forall (fun e => call e = Commit → raised e = false) load)
  ∧ (raises_on_direct_only sink →
     ∃ trace,
       create_table_and_insert cfg json_dumps sink docs table_name sample_size []
       = (trace, Returned (length docs))).
Proof.
  destruct (analyze_collection_schema_spec docs sample_size)
    as (stats & Hscan & Hd & _).
  destruct (infer_schema_spec cfg docs sample_size stats _ Hscan Hd)
    as (tys & Hs & _).
  rewrite (create_table_and_insert_unfold _ _ _ _ _ _ _ _ _ Hs).
  cbv zeta. rewrite insert_all_unfold. cbn [app]. split.
  - intros trace rows. destruct (sink [] _); [done |].
    destruct (sink [_] Commit); [done |].
    destruct (insert_loop _ _ _ _ _ _ _ _ _) as [h1 [n | e]] eqn:Hloop; [| done].
    destruct (sink h1 Commit); [done |]. intros [= <- <-].
    apply (insert_loop_returned _ _ _ _ _ _ _ _ _ _ _ 0%nat) in Hloop
      as (-> & load & -> & Hpts & Hcnt & Hcm); [| lia].
    split; [done |]. eexists _, load. split; [reflexivity |].
    split; [| done].
    rewrite commit_points_app, Hpts, Hcnt. cbn. f_equal.
    apply filter_seq_ext. intros m Hm.
    by rewrite Nat.sub_0_r, Nat.add_0_r.
  - intros Hsink.
    destruct (sink [] _) eqn:E1; [by apply Hsink in E1 as (_ & [] & ? & ? & _) |].
    destruct (sink [_] Commit) eqn:E2; [by apply Hsink in E2 as [? _] |].
    destruct (insert_loop_returns cfg json_dumps sink
                (insert_statement table_name (ordered_fields stats))
                (ordered_fields stats) docs Hsink 0 0
                [mkEvent (Execute (build_create_table_statement cfg table_name
                                     (zip (ordered_fields stats) tys)) []) false;
                 mkEvent Commit false])
      as [h1 ->].
    destruct (sink h1 Commit) eqn:E3; [by apply Hsink in E3 as [? _] |].
    by eexists.
Qed.

(** C7: the schema has ["_id"] first and after it the other fields of the
    scan, each once, in ascending order; each column has the type its
    statistics resolve to; when the scan found no ["_id"], its statistics
    are the synthesized ones, tagged object id with count 0, and its
    column is NVARCHAR(24); the CREATE TABLE text lists the columns in
    this order, each declared NULL; and that text is the first thing sent
    to the sink. *)
Theorem C7_id_first_rest_sorted (cfg : Config) (docs : list Doc)
    (sample_size : option Z) :
  ∃ stats total rest types_of_fields,
    analyze_collection_schema docs sample_size = Returned (stats, total)
    ∧ infer_schema cfg docs sample_size
      = Returned ("_id" :: rest, zip ("_id" :: rest) types_of_fields)
    ∧ Sorted String.le rest
    ∧ NoDup ("_id" :: rest)
    ∧ (∀ k, k ∈ rest ↔ k ∈ Dict.keys stats ∧ k ≠ "_id")
    ∧ Forall2 (fun f ty => ∃ st, Dict.get f (ensure_id stats) = Some st
                                 ∧ ty = sql_type_from_stats cfg st)
              ("_id" :: rest) types_of_fields
    ∧ (∀ k st, Dict.get k stats = Some st →
               Dict.get k (ensure_id stats) = Some st)
    ∧ (Dict.get "_id" stats = None →
         Dict.get "_id" (ensure_id stats) = Some synthesized_id
         ∧ types synthesized_id = {[ TObjectId ]}
         ∧ count synthesized_id = 0%nat
         ∧ sql_type_from_stats cfg synthesized_id = "NVARCHAR(24)"
         ∧ head types_of_fields = Some "NVARCHAR(24)")
    ∧ (docs = [] → rest = [] ∧ types_of_fields = ["NVARCHAR(24)"])
    ∧ (∀ table_name,
         let columns :=
           String.concat ("," +:+ nl +:+ "  ")
             (map (fun c : string * string => "[" +:+ c.1 +:+ "] " +:+ c.2 +:+ " NULL")
                  (zip ("_id" :: rest) types_of_fields)) in
         build_create_table_statement cfg table_name
           (zip ("_id" :: rest) types_of_fields)
         = if bool_decide (ReCreateIfExists cfg = 1) then
             nl +:+ "IF OBJECT_ID(N'dbo." +:+ table_name +:+ "', 'U') IS NOT NULL"
             +:+ nl +:+ "    DROP TABLE [dbo].[" +:+ table_name +:+ "];"
             +:+ nl +:+ "CREATE TABLE [dbo].[" +:+ table_name +:+ "] ("
             +:+ nl +:+ "  " +:+ columns +:+ nl +:+ ");" +:+ nl
           else
             nl +:+ "IF OBJECT_ID(N'dbo." +:+ table_name +:+ "', 'U') IS NULL"
             +:+ nl +:+ "BEGIN"
             +:+ nl +:+ "  CREATE TABLE [dbo].[" +:+ table_name +:+ "] ("
             +:+ nl +:+ "  " +:+ columns +:+ nl +:+ "  );"
             +:+ nl +:+ "END" +:+ nl)
    ∧ (∀ json_dumps sink table_name, ∃ r trace outcome,
         create_table_and_insert cfg json_dumps sink docs table_name sample_size []
         = (mkEvent (Execute (build_create_table_statement cfg table_name
                                (zip ("_id" :: rest) types_of_fields)) []) r
              :: trace,
            outcome)).
Proof.
  destruct (analyze_collection_schema_spec docs sample_size)
    as (stats & Hscan & Hd & Hget).
  destruct (infer_schema_spec cfg docs sample_size stats _ Hscan Hd)
    as (tys & Hs & Htys).
  set (rest := sorted (filter (fun k => k ≠ "_id") (Dict.keys stats))).
  change (ordered_fields stats) with ("_id" :: rest) in Hs, Htys.
  exists stats, (sample_count sample_size (length docs)), rest, tys.
  split; [done |]. split; [done |].
  split; [apply Sorted_merge_sort, _ |].
  split; [by apply (ordered_fields_NoDup stats) |].
  split.
  { intros k. unfold rest, sorted.
    rewrite merge_sort_Permutation, list_elem_of_filter. tauto. }
  split.
  { eapply Forall2_impl; [exact Htys |]. cbn. intros f ty Hf.
    destruct (Dict.get f (ensure_id stats)) as [st |]; [| done].
    exists st. split; [done |]. by injection Hf as <-. }
  split.
  { intros k st Hst. rewrite get_ensure_id, Hst. by case_bool_decide. }
  split.
  { intros Hid.
    assert (Dict.get "_id" (ensure_id stats) = Some synthesized_id) as Hsyn.
    { by rewrite get_ensure_id, Hid. }
    repeat (split; [done |]).
    inversion Htys as [| f ty fs tys' Hf Hrest]; subst.
    rewrite Hsyn in Hf. cbn in Hf. by injection Hf as <-. }
  split.
  { intros ->. cbn in Hscan. injection Hscan as <-.
    unfold rest. cbn. split; [done |].
    inversion Htys as [| f ty fs tys' Hf Hrest]; subst.
    cbn in Hf. injection Hf as <-. by inversion Hrest. }
  split; [done |].
  intros json_dumps sink table_name.
  rewrite (create_table_and_insert_unfold _ _ _ _ _ _ _ _ _ Hs).
  cbv zeta. cbn [app].
  destruct (sink [] _); [by eexists _, _, _ |].
  destruct (sink [_] Commit); [by eexists _, _, _ |].
  destruct (insert_loop_extends cfg json_dumps sink
              (insert_statement table_name ("_id" :: rest)) ("_id" :: rest)
              docs 0 0
              [mkEvent (Execute (build_create_table_statement cfg table_name
                                   (zip ("_id" :: rest) tys)) []) false;
               mkEvent Commit false]) as [t Ht].
  rewrite insert_all_unfold.
  destruct (insert_loop _ _ _ _ _ _ _ _ _) as [h1 [n | e]]; cbn [fst] in Ht;
    subst h1; [destruct (sink _ Commit) |]; by eexists _, _, _.
Qed.

(** ** Instances of the theorems *)

Lemma C3_sample_order_witness :
  infer_schema module_config
    [ [("a", PyInt 1)]; [("b", PyStr "x"); ("a", PyNone)] ] None
  = infer_schema module_config
      [ [("b", PyStr "x"); ("a", PyNone)]; [("a", PyInt 1)] ] None.
Proof.
  destruct (C3_sample_order_irrelevant module_config
              [ [("a", PyInt 1)]; [("b", PyStr "x"); ("a", PyNone)] ]
              [ [("b", PyStr "x"); ("a", PyNone)]; [("a", PyInt 1)] ] None)
    as [(stats & stats' & total & fields & schema_map & _ & _ & _ & H1 & H2) _].
  - apply perm_swap.
  - rewrite H1, H2. reflexivity.
Defined.

Lemma C4_one_retry_witness :
  insert_all module_config (fun _ => "[]") always_raises "INSERT" ["a"]
    ([] ++ [("a", PyList [])] :: [ [("a", PyInt 1)] ]) []
  = ([mkEvent (Execute "INSERT" [PyStr "[]"]) true;
      mkEvent (Execute "INSERT" [PyStr "[]"]) true],
     Raised SinkError).
Proof.
  destruct (C4_one_retry_then_fatal module_config (fun _ => "[]")
              always_raises "INSERT") as (_ & _ & _ & H & _).
  apply (H ["a"] [] [("a", PyList [])] [ [("a", PyInt 1)] ] [] [] 0%nat);
    reflexivity.
Defined.

Lemma C7_empty_collection_witness :
  infer_schema module_config [] (Some 1000)
  = Returned (["_id"], [("_id", "NVARCHAR(24)")]).
Proof.
  destruct (C7_id_first_rest_sorted module_config [] (Some 1000))
    as (stats & total & rest & tys & Hscan & Hs & _ & _ & _ & _ & _
        & Hid & Hempty & _).
  cbn in Hscan. injection Hscan as <- <-.
  destruct (Hid eq_refl) as (_ & _ & _ & _ & Hhead).
  destruct (Hempty eq_refl) as [-> ->].
  exact Hs.
Defined.

Lemma raises_after_commit_direct_only : raises_on_direct_only raises_after_commit.
Proof.
  intros h c. unfold raises_after_commit.
  destruct c as [stmt ps |]; [| done].
  destruct (last h) as [[[] []] |] eqn:E; try done.
  intros _. split; [done |].
  apply last_Some in E as [h0 ->]. by eexists _, _.
Qed.

Lemma C9_batch_commits_witness :
  ∃ trace ddl load,
    create_table_and_insert (mkConfig 1 None 2 38 18) (fun _ => "[]")
      raises_after_commit
      [ [("_id", PyInt 1)]; [("_id", PyInt 2)]; [("_id", PyInt 3)];
        [("_id", PyInt 4)]; [("_id", PyInt 5)] ] "t" None []
    = (trace, Returned 5%nat)
    ∧ trace = [mkEvent (Execute ddl []) false; mkEvent Commit false]
              ++ load ++ [mkEvent Commit false]
    ∧ commit_points 0 (load ++ [mkEvent Commit false]) = [2; 4; 5]%nat
    ∧ ∃ trace',
        create_table_and_insert (mkConfig 1 None 2 38 18) (fun _ => "[]")
          raises_after_commit
          [ [("_id", PyInt 1)]; [("_id", PyInt 2)]; [("_id", PyInt 3)];
            [("_id", PyInt 4)]; [("_id", PyInt 5)] ] "t" None []
        = (trace', Returned 5%nat).
Proof.
  destruct (C9_batch_commits_and_row_count (mkConfig 1 None 2 38 18)
              (fun _ => "[]") raises_after_commit
              [ [("_id", PyInt 1)]; [("_id", PyInt 2)]; [("_id", PyInt 3)];
                [("_id", PyInt 4)]; [("_id", PyInt 5)] ] "t" None)
    as [H H'].
  assert (create_table_and_insert (mkConfig 1 None 2 38 18) (fun _ => "[]")
            raises_after_commit
            [ [("_id", PyInt 1)]; [("_id", PyInt 2)]; [("_id", PyInt 3)];
              [("_id", PyInt 4)]; [("_id", PyInt 5)] ] "t" None []
          = ((create_table_and_insert (mkConfig 1 None 2 38 18) (fun _ => "[]")
                raises_after_commit
                [ [("_id", PyInt 1)]; [("_id", PyInt 2)]; [("_id", PyInt 3)];
                  [("_id", PyInt 4)]; [("_id", PyInt 5)] ] "t" None []).1,
             Returned 5%nat)) as E by (vm_compute; reflexivity).
  destruct (H _ _ E) as (_ & ddl & load & Ht & Hpts & _).
  eexists _, ddl, load. split; [exact E |]. split; [exact Ht |].
  split; [exact Hpts |]. exact (H' raises_after_commit_direct_only).
Defined.


(** * Further properties *)

(** ** More on the type resolver *)

Lemma size_1_two_elems (X : gset TypeTag) (a b : TypeTag) :
  a ∈ X → b ∈ X → a ≠ b → size X ≠ 1%nat.
Proof.
  intros Ha Hb Hne Hsz. apply size_1_elem_of in Hsz as [x Hx].
  apply leibniz_equiv in Hx. subst X. set_solver.
Qed.

Section ResolverMore.
Variable cfg : Config.

(** X1: every type the resolver returns is one of twelve. *)
Theorem X1_resolved_type_range (st : FieldStats) :
  sql_type_from_stats cfg st
  ∈ [ "NVARCHAR(MAX)"; "VARBINARY(MAX)"; "NVARCHAR(24)"; "BIT"; "DATETIME2";
      "DECIMAL(" +:+ pretty (DECIMAL_PRECISION cfg) +:+ ","
        +:+ pretty (DECIMAL_SCALE cfg) +:+ ")";
      "FLOAT"; "INT"; "BIGINT";
      "DECIMAL(" +:+ pretty (DECIMAL_PRECISION cfg) +:+ ",0)";
      "NCHAR(1)"; "NVARCHAR(255)" ].
Proof.
  unfold sql_type_from_stats. cbv zeta.
  repeat case_match; repeat (first [by left | right]).
Qed.

(** X2: a composite tag makes the column NVARCHAR(MAX), whatever else was
    seen. *)
Theorem X2_json_dominates (st : FieldStats) :
  TJson ∈ types st → sql_type_from_stats cfg st = "NVARCHAR(MAX)".
Proof.
  intros Hj. unfold sql_type_from_stats. cbv zeta.
  case_bool_decide; [done |]. by rewrite (bool_decide_eq_true_2 _ Hj).
Qed.

(** X3: without a composite tag, a float tag makes the column FLOAT,
    whatever else was seen, strings included. *)
Theorem X3_float_dominates (st : FieldStats) :
  TFloat ∈ types st → TJson ∉ types st →
  sql_type_from_stats cfg st = "FLOAT".
Proof.
  intros Hf Hj. unfold sql_type_from_stats. cbv zeta.
  rewrite (bool_decide_eq_false_2 (types st = {[ TNull ]})) by set_solver.
  rewrite (bool_decide_eq_false_2 (TJson ∈ types st)) by done.
  rewrite (bool_decide_eq_false_2 (types st = {[ TBytes ]})) by set_solver.
  rewrite (bool_decide_eq_false_2 (types st = {[ TObjectId ]})) by set_solver.
  assert (bool_decide (TObjectId ∈ types st)
          && bool_decide (size (types st) = 1%nat) = false) as ->.
  { case_bool_decide as Ho; [| done]. cbn.
    apply bool_decide_eq_false_2.
    by apply (size_1_two_elems _ TObjectId TFloat). }
  rewrite (bool_decide_eq_false_2 (types st = {[ TBool ]})) by set_solver.
  rewrite (bool_decide_eq_false_2 (types st = {[ TDatetime ]})) by set_solver.
  rewrite (bool_decide_eq_false_2 (types st ⊆ {[ TDecimal; TInt ]}))
    by set_solver.
  rewrite andb_false_r. by rewrite (bool_decide_eq_true_2 _ Hf).
Qed.

(** X4: a field with one tag gets the type of that tag; the same tag
    together with null gives NVARCHAR(MAX) for booleans, date-times,
    binaries, object ids and decimals. *)
Theorem X4_single_tag_and_null (st : FieldStats) :
  (types st = {[ TBool ]} → sql_type_from_stats cfg st = "BIT")
  ∧ (types st = {[ TDatetime ]} → sql_type_from_stats cfg st = "DATETIME2")
  ∧ (types st = {[ TBytes ]} → sql_type_from_stats cfg st = "VARBINARY(MAX)")
  ∧ (types st = {[ TObjectId ]} → sql_type_from_stats cfg st = "NVARCHAR(24)")
  ∧ (types st = {[ TDecimal ]} ∨ types st = {[ TDecimal; TInt ]} →
       sql_type_from_stats cfg st
       = "DECIMAL(" +:+ pretty (DECIMAL_PRECISION cfg) +:+ ","
           +:+ pretty (DECIMAL_SCALE cfg) +:+ ")")
  ∧ (∀ t, t ∈ [TBool; TDatetime; TBytes; TObjectId; TDecimal] →
       types st = {[ t; TNull ]} →
       sql_type_from_stats cfg st = "NVARCHAR(MAX)").
Proof.
  unfold sql_type_from_stats. cbv zeta.
  repeat split; try (intros ->; reflexivity).
  - by intros [-> | ->].
  - intros t Ht. rewrite !elem_of_cons, elem_of_nil in Ht.
    destruct Ht as [-> | [-> | [-> | [-> | [-> | []]]]]]; by intros ->.
Qed.

(** X5: null does not change the type of an integer, string or float
    field. *)
Theorem X5_null_keeps_int_str_float (st st' : FieldStats) (t : TypeTag) :
  t ∈ [TInt; TStr; TFloat] →
  types st = {[ t ]} → types st' = {[ t; TNull ]} →
  int_min st' = int_min st → int_max st' = int_max st →
  max_str_len st' = max_str_len st →
  sql_type_from_stats cfg st' = sql_type_from_stats cfg st.
Proof.
  intros Ht H1 H2 Hlo Hhi Hlen. unfold sql_type_from_stats. cbv zeta.
  rewrite H1, H2, Hlo, Hhi, Hlen.
  rewrite !elem_of_cons, elem_of_nil in Ht.
  by destruct Ht as [-> | [-> | [-> | []]]].
Qed.

(** X6: two different tags, neither of them null, give NVARCHAR(MAX),
    unless float is among the tags or the tags are decimal and int. *)
Theorem X6_mixed_tags_are_text (st : FieldStats) (a b : TypeTag) :
  a ∈ types st → b ∈ types st → a ≠ b → a ≠ TNull → b ≠ TNull →
  TFloat ∉ types st → ¬ types st ⊆ {[ TDecimal; TInt ]} →
  sql_type_from_stats cfg st = "NVARCHAR(MAX)".
Proof.
  intros Ha Hb Hab Han Hbn Hf Hd. unfold sql_type_from_stats. cbv zeta.
  assert (∀ c, types st ≠ {[ c ]}) as Hone.
  { intros c E. rewrite E in Ha, Hb.
    apply elem_of_singleton in Ha, Hb. congruence. }
  assert (∀ c, ¬ types st ⊆ {[ c; TNull ]}) as Htwo.
  { intros c E. apply E in Ha, Hb.
    rewrite elem_of_union, !elem_of_singleton in Ha, Hb.
    destruct Ha, Hb; congruence. }
  case_bool_decide; [done |]. case_bool_decide; [done |].
  rewrite (bool_decide_eq_false_2 (types st = {[ TBytes ]})) by done.
  rewrite (bool_decide_eq_false_2 (types st = {[ TObjectId ]})) by done.
  rewrite (bool_decide_eq_false_2 (size (types st) = 1%nat))
    by by apply (size_1_two_elems _ a b).
  rewrite andb_false_r. cbn [orb].
  rewrite (bool_decide_eq_false_2 (types st = {[ TBool ]})) by done.
  rewrite (bool_decide_eq_false_2 (types st = {[ TDatetime ]})) by done.
  rewrite (bool_decide_eq_false_2 (types st ⊆ {[ TDecimal; TInt ]})) by done.
  rewrite andb_false_r.
  rewrite (bool_decide_eq_false_2 (TFloat ∈ types st)) by done.
  rewrite (bool_decide_eq_false_2 (types st = {[ TInt ]})) by done.
  rewrite (bool_decide_eq_false_2 (types st = {[ TInt; TNull ]})).
  2:{ intros E. apply (Htwo TInt). by rewrite E. }
  cbn [orb].
  by rewrite (bool_decide_eq_false_2 (types st ⊆ {[ TStr; TNull ]})).
Qed.
End ResolverMore.

(** ** More on the scanner *)

(** The record of a field in the result of a scan is the fold of its
    observations, with the ["nullable"] entry set. *)
Lemma analyze_lookup (docs : list Doc) (sample_size : option Z)
    (stats : Stats) (total : nat) (k : string) (st : FieldStats) :
  analyze_collection_schema docs sample_size = Returned (stats, total) →
  Dict.get k stats = Some st →
  total = sample_count sample_size (length docs)
  ∧ observations k (sample sample_size docs) ≠ []
  ∧ st = set_nullable
           (bool_decide
              (count (foldl observe new_field_stats
                        (observations k (sample sample_size docs))) < total)%nat)
           (foldl observe new_field_stats
              (observations k (sample sample_size docs))).
Proof.
  intros Hrun Hst.
  destruct (analyze_collection_schema_spec docs sample_size)
    as (stats' & Hrun' & _ & Hget).
  rewrite Hrun in Hrun'. injection Hrun' as E1 E2. subst stats' total.
  split; [done |]. rewrite Hget in Hst.
  destruct (observations k (sample sample_size docs)) as [| v vs]; [done |].
  split; [done |]. cbn in Hst. by injection Hst as <-.
Qed.

Lemma types_foldl_observe (vs : list PyValue) (st : FieldStats) :
  types (foldl observe st vs) = list_to_set (classify <$> vs) ∪ types st.
Proof.
  revert st. induction vs as [| v vs IH]; intros st; cbn.
  - set_solver.
  - rewrite IH, observe_unfold. cbn. set_solver.
Qed.

Lemma classify_int (v : PyValue) :
  classify v = TInt ↔ is_Some (observed_int v).
Proof.
  destruct v as [| | | | | | | | | | | | | | |[]]; cbn; split;
    try done; try (by intros [? ?]); by eexists.
Qed.

(** The bounds after a run of observations: the least and the greatest
    of the bound before and the integers observed. *)
Lemma int_min_foldl_observe (vs : list PyValue) (st : FieldStats) :
  match int_min (foldl observe st vs) with
  | None => int_min st = None ∧ omap observed_int vs = []
  | Some lo =>
      (int_min st = Some lo ∨ lo ∈ omap observed_int vs)
      ∧ (∀ m, int_min st = Some m → lo ≤ m)
      ∧ ∀ z, z ∈ omap observed_int vs → lo ≤ z
  end.
Proof.
  revert st. induction vs as [| v vs IH]; intros st; cbn [foldl omap list_omap].
  - destruct (int_min st) as [m |]; [| done].
    split; [by left |]. split; [intros ? [= <-]; lia |].
    intros z Hz. by apply elem_of_nil in Hz.
  - specialize (IH (observe st v)).
    assert (int_min (observe st v) = lower_bound (int_min st) (observed_int v)) as E
      by by rewrite observe_unfold.
    destruct (int_min (foldl observe (observe st v) vs)) as [lo |];
      rewrite E in IH.
    + destruct IH as (Hin & Hle & Hall).
      destruct (observed_int v) as [z |], (int_min st) as [m |]; cbn in *.
      * specialize (Hle _ eq_refl).
        split; [| split; [intros ? [= <-]; lia |
                          intros z' [-> | Hz]%elem_of_cons; [lia | auto]]].
        destruct Hin as [[= <-] | Hin]; [| right; by right].
        destruct (Z.min_spec z m) as [[_ ->] | [_ ->]];
          [right; by left | by left].
      * specialize (Hle _ eq_refl).
        split; [| split; [done |
                          intros z' [-> | Hz]%elem_of_cons; [lia | auto]]].
        destruct Hin as [[= <-] | Hin]; right; [by left | by right].
      * done.
      * done.
    + destruct IH as [Hn Hvs].
      by destruct (observed_int v) as [z |], (int_min st) as [m |].
Qed.

Lemma int_max_foldl_observe (vs : list PyValue) (st : FieldStats) :
  match int_max (foldl observe st vs) with
  | None => int_max st = None ∧ omap observed_int vs = []
  | Some hi =>
      (int_max st = Some hi ∨ hi ∈ omap observed_int vs)
      ∧ (∀ m, int_max st = Some m → m ≤ hi)
      ∧ ∀ z, z ∈ omap observed_int vs → z ≤ hi
  end.
Proof.
  revert st. induction vs as [| v vs IH]; intros st; cbn [foldl omap list_omap].
  - destruct (int_max st) as [m |]; [| done].
    split; [by left |]. split; [intros ? [= <-]; lia |].
    intros z Hz. by apply elem_of_nil in Hz.
  - specialize (IH (observe st v)).
    assert (int_max (observe st v) = upper_bound (int_max st) (observed_int v)) as E
      by by rewrite observe_unfold.
    destruct (int_max (foldl observe (observe st v) vs)) as [hi |];
      rewrite E in IH.
    + destruct IH as (Hin & Hle & Hall).
      destruct (observed_int v) as [z |], (int_max st) as [m |]; cbn in *.
      * specialize (Hle _ eq_refl).
        split; [| split; [intros ? [= <-]; lia |
                          intros z' [-> | Hz]%elem_of_cons; [lia | auto]]].
        destruct Hin as [[= <-] | Hin]; [| right; by right].
        destruct (Z.max_spec z m) as [[_ ->] | [_ ->]];
          [by left | right; by left].
      * specialize (Hle _ eq_refl).
        split; [| split; [done |
                          intros z' [-> | Hz]%elem_of_cons; [lia | auto]]].
        destruct Hin as [[= <-] | Hin]; right; [by left | by right].
      * done.
      * done.
    + destruct IH as [Hn Hvs].
      by destruct (observed_int v) as [z |], (int_max st) as [m |].
Qed.

Lemma max_str_len_foldl_observe (vs : list PyValue) (st : FieldStats) :
  (max_str_len st ≤ max_str_len (foldl observe st vs))%nat
  ∧ (∀ v, v ∈ vs → (observed_len v ≤ max_str_len (foldl observe st vs))%nat)
  ∧ (max_str_len (foldl observe st vs) = max_str_len st
     ∨ ∃ v, v ∈ vs ∧ observed_len v = max_str_len (foldl observe st vs)).
Proof.
  revert st. induction vs as [| v vs IH]; intros st; cbn [foldl].
  - split; [done |]. split; [| by left].
    intros v Hv. by apply elem_of_nil in Hv.
  - destruct (IH (observe st v)) as (Hle & Hall & Hatt).
    assert (max_str_len (observe st v)
            = Nat.max (max_str_len st) (observed_len v)) as E
      by by rewrite observe_unfold.
    rewrite E in Hle, Hatt. split; [lia |]. split.
    + intros v' [-> | Hv']%elem_of_cons; [lia | auto].
    + destruct Hatt as [Hatt | (v' & Hv' & Hatt)].
      * destruct (Nat.max_spec (max_str_len st) (observed_len v))
          as [[_ Hm] | [_ Hm]]; rewrite Hm in Hatt.
        -- right. exists v. split; [by left | done].
        -- by left.
      * right. exists v'. split; [by right | done].
Qed.

Lemma omap_nil_iff {A B} (f : A → option B) (l : list A) :
  omap f l = [] ↔ ∀ x, x ∈ l → f x = None.
Proof.
  induction l as [| x l IH]; cbn.
  - split; [intros _ x Hx; by apply elem_of_nil in Hx | done].
  - destruct (f x) as [y |] eqn:E.
    + split; [done |]. intros H. specialize (H x (list_elem_of_here _ _)).
      congruence.
    + rewrite IH. split.
      * intros H x' [-> | Hx']%elem_of_cons; auto.
      * intros H x' Hx'. apply H. by right.
Qed.

(** The tag set of a field is the set of the tags of the values the
    sample holds under its key, and it is not empty. *)
Lemma field_tags (docs : list Doc) (sample_size : option Z)
    (stats : Stats) (total : nat) (k : string) (st : FieldStats) :
  analyze_collection_schema docs sample_size = Returned (stats, total) →
  Dict.get k stats = Some st →
  types st = list_to_set (classify <$> observations k (sample sample_size docs))
  ∧ types st ≠ ∅.
Proof.
  intros Hrun Hst.
  destruct (analyze_lookup _ _ _ _ _ _ Hrun Hst) as (_ & Hne & ->).
  cbn [types set_nullable]. rewrite types_foldl_observe. cbn [types new_field_stats].
  split; [set_solver |].
  destruct (observations k (sample sample_size docs)) as [| v vs]; [done |].
  cbn. set_solver.
Qed.

(** The integer bounds of a field are known exactly when the sample
    holds an integer under its key, which is when the field has the int
    tag; they are then the least and the greatest of these integers, so
    the minimum is not above the maximum. *)
Lemma field_int_bounds (docs : list Doc) (sample_size : option Z)
    (stats : Stats) (total : nat) (k : string) (st : FieldStats) :
  analyze_collection_schema docs sample_size = Returned (stats, total) →
  Dict.get k stats = Some st →
  let ints := omap observed_int (observations k (sample sample_size docs)) in
  (TInt ∈ types st ↔ ints ≠ [])
  ∧ (int_min st = None ↔ ints = [])
  ∧ (int_max st = None ↔ ints = [])
  ∧ ∀ lo hi, int_min st = Some lo → int_max st = Some hi →
      lo ∈ ints ∧ hi ∈ ints ∧ lo ≤ hi ∧ ∀ z, z ∈ ints → lo ≤ z ≤ hi.
Proof.
  intros Hrun Hst ints.
  destruct (field_tags _ _ _ _ _ _ Hrun Hst) as [Hty _].
  destruct (analyze_lookup _ _ _ _ _ _ Hrun Hst) as (_ & Hne & ->).
  cbn [int_min int_max set_nullable].
  pose proof (int_min_foldl_observe
                (observations k (sample sample_size docs)) new_field_stats)
    as Hmin.
  pose proof (int_max_foldl_observe
                (observations k (sample sample_size docs)) new_field_stats)
    as Hmax.
  fold ints in Hmin, Hmax. cbn [int_min int_max new_field_stats] in Hmin, Hmax.
  split; [| split; [| split]].
  - rewrite Hty, elem_of_list_to_set, list_elem_of_fmap.
    unfold ints. rewrite omap_nil_iff. split.
    + intros (v & Hc & Hv) Hall. symmetry in Hc.
      apply classify_int in Hc as [z Hz]. rewrite (Hall v Hv) in Hz. done.
    + intros Hex.
      destruct (omap observed_int (observations k (sample sample_size docs)))
        as [| z zs] eqn:E; [exfalso; apply Hex; by apply omap_nil_iff |].
      assert (z ∈ omap observed_int (observations k (sample sample_size docs)))
        as Hz by (rewrite E; left).
      apply list_elem_of_omap in Hz as (v & Hv & Hz).
      exists v. split; [| done]. symmetry. apply classify_int. by eexists.
  - destruct (int_min _) as [lo |].
    + split; [done |]. intros E. destruct Hmin as ([? | Hin] & _); [done |].
      rewrite E in Hin. by apply elem_of_nil in Hin.
    + by destruct Hmin.
  - destruct (int_max _) as [hi |].
    + split; [done |]. intros E. destruct Hmax as ([? | Hin] & _); [done |].
      rewrite E in Hin. by apply elem_of_nil in Hin.
    + by destruct Hmax.
  - intros lo hi Elo Ehi. rewrite Elo in Hmin. rewrite Ehi in Hmax.
    destruct Hmin as ([? | Hlo] & _ & Hmin); [done |].
    destruct Hmax as ([? | Hhi] & _ & Hmax); [done |].
    split; [done |]. split; [done |]. split; [by apply Hmin |].
    intros z Hz. split; [by apply Hmin | by apply Hmax].
Qed.

(** The records the loader hands to the resolver, those of a scan and the
    synthesized [_id] record, have their integer bounds in order. *)
Lemma resolved_bounds_ordered (docs : list Doc) (sample_size : option Z)
    (stats : Stats) (total : nat) (k : string) (st : FieldStats) :
  analyze_collection_schema docs sample_size = Returned (stats, total) →
  Dict.get k (ensure_id stats) = Some st →
  bounds_ordered st.
Proof.
  intros Hrun Hst.
  assert (∀ st', Dict.get k stats = Some st' → bounds_ordered st') as Hscan.
  { intros st' Hst'.
    destruct (field_int_bounds _ _ _ _ _ _ Hrun Hst') as (_ & _ & _ & Hb).
    unfold bounds_ordered.
    destruct (int_min st') as [lo |] eqn:Elo; [| done].
    destruct (int_max st') as [hi |] eqn:Ehi; [| done].
    by destruct (Hb lo hi eq_refl eq_refl) as (_ & _ & Hle & _). }
  rewrite get_ensure_id in Hst. case_bool_decide.
  - injection Hst as <-. destruct (Dict.get k stats) as [st' |] eqn:E; cbn.
    + by apply Hscan.
    + exact I.
  - by apply Hscan.
Qed.

(** C1: every record the loader hands to the resolver has its integer
    bounds in order, and for every record with bounds in order whose tag
    set is {int} or {int, null} the resolver returns BIGINT when a bound
    is unknown, INT when both bounds lie in the 32-bit range, otherwise
    BIGINT when both lie in the 64-bit range, otherwise the zero-scale
    DECIMAL of the configured precision.  The three boundaries of the
    claim are instances. *)
Theorem C1_integer_sizing (cfg : Config) :
  (∀ docs sample_size stats total k st,
     analyze_collection_schema docs sample_size = Returned (stats, total) →
     Dict.get k (ensure_id stats) = Some st →
     bounds_ordered st)
  ∧ ∀ st : FieldStats,
      types st = {[ TInt ]} ∨ types st = {[ TInt; TNull ]} →
      bounds_ordered st →
      let decimal0 :=
        "DECIMAL(" +:+ pretty (DECIMAL_PRECISION cfg) +:+ ",0)" in
      (int_min st = None ∨ int_max st = None →
         sql_type_from_stats cfg st = "BIGINT")
      ∧ (∀ lo hi, int_min st = Some lo → int_max st = Some hi →
           (-2147483648 ≤ lo ≤ 2147483647 ∧ -2147483648 ≤ hi ≤ 2147483647 →
              sql_type_from_stats cfg st = "INT")
           ∧ (¬ (-2147483648 ≤ lo ≤ 2147483647
                 ∧ -2147483648 ≤ hi ≤ 2147483647) →
              -9223372036854775808 ≤ lo ≤ 9223372036854775807
              ∧ -9223372036854775808 ≤ hi ≤ 9223372036854775807 →
              sql_type_from_stats cfg st = "BIGINT")
           ∧ (¬ (-9223372036854775808 ≤ lo ≤ 9223372036854775807
                 ∧ -9223372036854775808 ≤ hi ≤ 9223372036854775807) →
              sql_type_from_stats cfg st = decimal0))
      ∧ (int_min st = Some (-2147483648) → int_max st = Some 2147483647 →
           sql_type_from_stats cfg st = "INT")
      ∧ (int_min st = Some (-2147483649) → int_max st = Some 2147483647 →
           sql_type_from_stats cfg st = "BIGINT")
      ∧ (∀ lo hi, int_min st = Some lo → int_max st = Some hi →
           9223372036854775807 < hi →
           sql_type_from_stats cfg st = decimal0).
Proof.
  split; [intros docs sample_size stats total k st;
          apply resolved_bounds_ordered |].
  intros st Ht Hord decimal0. rewrite (resolve_integer_tags cfg st Ht).
  unfold bounds_ordered in Hord.
  change INT32_MIN with (-2147483648). change INT32_MAX with 2147483647.
  change INT64_MIN with (-9223372036854775808).
  change INT64_MAX with 9223372036854775807.
  repeat split.
  - intros [-> | ->]; [done | by destruct (int_min st)].
  - intros [? ?]. rewrite H, H0 in *. by_leb.
  - intros Hn [? ?]. rewrite H, H0 in *. by_leb.
  - intros Hn. rewrite H, H0 in *. by_leb.
  - by intros -> ->.
  - by intros -> ->.
  - intros lo hi Elo Ehi Hhi. rewrite Elo, Ehi in *. by_leb.
Qed.

(** The maximum string length of a field is at least the length of
    every string the sample holds under its key, and is the length of
    one of them unless it is 0. *)
Lemma field_max_str_len (docs : list Doc) (sample_size : option Z)
    (stats : Stats) (total : nat) (k : string) (st : FieldStats) :
  analyze_collection_schema docs sample_size = Returned (stats, total) →
  Dict.get k stats = Some st →
  (∀ v, v ∈ observations k (sample sample_size docs) →
        (observed_len v ≤ max_str_len st)%nat)
  ∧ (max_str_len st = 0%nat
     ∨ ∃ v, v ∈ observations k (sample sample_size docs)
            ∧ observed_len v = max_str_len st).
Proof.
  intros Hrun Hst.
  destruct (analyze_lookup _ _ _ _ _ _ Hrun Hst) as (_ & Hne & ->).
  cbn [max_str_len set_nullable].
  destruct (max_str_len_foldl_observe
              (observations k (sample sample_size docs)) new_field_stats)
    as (_ & Hall & Hatt).
  split; [done |]. exact Hatt.
Qed.

(** Documents as Python has them: no key twice. *)
Lemma values_at_length (k : string) (doc : Doc) :
  NoDup (Dict.keys doc) →
  length (values_at k doc) = if bool_decide (k ∈ Dict.keys doc) then 1%nat else 0%nat.
Proof.
  unfold values_at, Dict.keys. induction doc as [| [k0 v0] doc IH]; cbn.
  - intros _. by rewrite bool_decide_eq_false_2 by apply not_elem_of_nil.
  - intros [Hk0 Hd]%NoDup_cons. destruct (decide (k = k0)) as [-> | E].
    + rewrite (bool_decide_eq_true_2 (k0 = k0)) by done.
      rewrite (bool_decide_eq_true_2 (k0 ∈ k0 :: map fst doc)) by left.
      cbn. rewrite IH by done. by rewrite bool_decide_eq_false_2.
    + rewrite (bool_decide_eq_false_2 (k = k0)) by done.
      rewrite IH by done.
      by rewrite (bool_decide_ext (k ∈ k0 :: map fst doc) (k ∈ map fst doc))
        by set_solver.
Qed.

Lemma observations_length (k : string) (docs : list Doc) :
  Forall (fun doc => NoDup (Dict.keys doc)) docs →
  length (observations k docs)
  = length (filter (fun doc => k ∈ Dict.keys doc) docs).
Proof.
  induction 1 as [| doc docs Hd _ IH]; [done |].
  rewrite observations_cons, length_app, IH, (values_at_length _ _ Hd).
  rewrite filter_cons. case_bool_decide as E.
  - by rewrite decide_True.
  - by rewrite decide_False.
Qed.

Lemma length_filter_all {A} (P : A → Prop) `{!∀ x, Decision (P x)}
    (l : list A) :
  length (filter P l) = length l ↔ Forall P l.
Proof.
  induction l as [| x l IH]; [split; [constructor | done] |].
  rewrite filter_cons. pose proof (length_filter P l) as Hle.
  destruct (decide (P x)) as [Hx | Hx]; cbn.
  - rewrite Forall_cons. split.
    + intros [= E]. split; [done | by apply IH].
    + intros [_ Hl]. f_equal. by apply IH.
  - split; [lia |]. intros [? _]%Forall_cons. done.
Qed.

(** X10: when no document holds a key twice, the count of a field is the
    number of sampled documents that hold its key, it is at most
    [total_docs], and the field is marked not nullable exactly when every
    sampled document holds the key. *)
Theorem X10_nullable_means_missing (docs : list Doc) (sample_size : option Z)
    (stats : Stats) (total : nat) (k : string) (st : FieldStats) :
  Forall (fun doc => NoDup (Dict.keys doc)) docs →
  analyze_collection_schema docs sample_size = Returned (stats, total) →
  Dict.get k stats = Some st →
  count st = length (filter (fun doc => k ∈ Dict.keys doc)
                            (sample sample_size docs))
  ∧ (count st ≤ total)%nat
  ∧ (nullable st = Some false
     ↔ Forall (fun doc => k ∈ Dict.keys doc) (sample sample_size docs))
  ∧ (nullable st = Some true
     ↔ Exists (fun doc => k ∉ Dict.keys doc) (sample sample_size docs)).
Proof.
  intros Hdocs Hrun Hst.
  destruct (analyze_lookup _ _ _ _ _ _ Hrun Hst) as (Htotal & Hne & ->).
  cbn [count nullable set_nullable].
  rewrite count_foldl_observe. cbn [count new_field_stats plus].
  assert (Forall (fun doc => NoDup (Dict.keys doc)) (sample sample_size docs))
    as Hs by by apply Forall_take.
  rewrite (observations_length _ _ Hs).
  assert (total = length (sample sample_size docs)) as ->
    by by rewrite length_sample.
  pose proof (length_filter (fun doc => k ∈ Dict.keys doc)
                (sample sample_size docs)) as Hle.
  pose proof (length_filter_all (fun doc => k ∈ Dict.keys doc)
                (sample sample_size docs)) as Hall.
  split; [done |]. split; [done |]. split.
  - rewrite <- Hall. split.
    + intros [= H]. apply bool_decide_eq_false_1 in H. lia.
    + intros E. f_equal. apply bool_decide_eq_false_2. lia.
  - split.
    + intros [= H]. apply bool_decide_eq_true_1 in H.
      apply (not_Forall_Exists (fun doc => k ∈ Dict.keys doc)).
      rewrite <- Hall. lia.
    + intros E%(Exists_not_Forall (fun doc => k ∈ Dict.keys doc)).
      rewrite <- Hall in E. f_equal. apply bool_decide_eq_true_2. lia.
Qed.

(** ** From the sample to the column types *)

Lemma get_zip_Forall2 {A} (P : string → A → Prop) (fields : list string)
    (xs : list A) (k : string) :
  Forall2 P fields xs → k ∈ fields →
  ∃ x, Dict.get k (zip fields xs) = Some x ∧ P k x.
Proof.
  induction 1 as [| f x fields xs Hfx _ IH]; intros Hk.
  - by apply elem_of_nil in Hk.
  - cbn. case_bool_decide as E; [subst; by exists x |].
    apply elem_of_cons in Hk as [? | Hk]; [done | by apply IH].
Qed.

(** Every field of the scan has a column, of the type its statistics
    resolve to. *)
Lemma schema_lookup (cfg : Config) (docs : list Doc) (sample_size : option Z)
    (stats : Stats) (total : nat) (k : string) (st : FieldStats) :
  analyze_collection_schema docs sample_size = Returned (stats, total) →
  Dict.get k stats = Some st →
  ∃ fields schema_map,
    infer_schema cfg docs sample_size = Returned (fields, schema_map)
    ∧ k ∈ fields
    ∧ Dict.get k schema_map = Some (sql_type_from_stats cfg st).
Proof.
  intros Hrun Hst.
  destruct (analyze_collection_schema_spec docs sample_size)
    as (stats' & Hrun' & Hd & _).
  rewrite Hrun in Hrun'. injection Hrun' as E1 E2. subst stats'.
  destruct (infer_schema_spec cfg docs sample_size stats _ Hrun Hd)
    as (tys & Hs & Htys).
  assert (k ∈ ordered_fields stats) as Hk.
  { apply elem_of_ordered_fields. right. apply elem_of_keys. by eexists. }
  destruct (get_zip_Forall2 _ _ _ k Htys Hk) as (ty & Hty & Hres).
  exists (ordered_fields stats), (zip (ordered_fields stats) tys).
  split; [done |]. split; [done |].
  rewrite Hty. rewrite get_ensure_id, Hst in Hres.
  case_bool_decide; cbn in Hres; by injection Hres as <-.
Qed.

Lemma tags_int_or_null (X : gset TypeTag) :
  TInt ∈ X → X ⊆ {[ TInt; TNull ]} → X = {[ TInt ]} ∨ X = {[ TInt; TNull ]}.
Proof.
  intros Hi Hsub. destruct (decide (TNull ∈ X)); [right | left]; set_solver.
Qed.

Lemma tags_str_or_null (X : gset TypeTag) :
  TStr ∈ X → X ⊆ {[ TStr; TNull ]} → X ≠ {[ TNull ]}.
Proof. intros Hi Hsub E. rewrite E in Hi. set_solver. Qed.

(** X11: a field that holds only integers and nulls in the sample, and at
    least one integer, becomes an INT column when all its integers fit 32
    bits, else a BIGINT column when all fit 64 bits, else a zero-scale
    DECIMAL column. *)
Theorem X11_integer_column (cfg : Config) (docs : list Doc)
    (sample_size : option Z) (k : string) :
  let values := observations k (sample sample_size docs) in
  let ints := omap observed_int values in
  Forall (fun v => is_Some (observed_int v) ∨ v = PyNone) values →
  ints ≠ [] →
  ∃ fields schema_map,
    infer_schema cfg docs sample_size = Returned (fields, schema_map)
    ∧ k ∈ fields
    ∧ Dict.get k schema_map
      = Some (if bool_decide (Forall (fun z => -2147483648 ≤ z ≤ 2147483647) ints)
              then "INT"
              else if bool_decide
                        (Forall (fun z => -9223372036854775808 ≤ z
                                          ≤ 9223372036854775807) ints)
                   then "BIGINT"
                   else "DECIMAL(" +:+ pretty (DECIMAL_PRECISION cfg) +:+ ",0)").
Proof.
  intros values ints Hvals Hints.
  destruct (analyze_collection_schema_spec docs sample_size)
    as (stats & Hrun & _ & Hget).
  assert (values ≠ []) as Hne.
  { intros E. apply Hints. unfold ints. by rewrite E. }
  destruct (Dict.get k stats) as [st |] eqn:Hst.
  2:{ rewrite Hget in Hst. fold values in Hst. by destruct values. }
  destruct (schema_lookup cfg _ _ _ _ _ _ Hrun Hst)
    as (fields & schema_map & Hs & Hk & Hty).
  exists fields, schema_map. split; [done |]. split; [done |].
  rewrite Hty. f_equal.
  destruct (field_tags _ _ _ _ _ _ Hrun Hst) as [Htags _].
  destruct (field_int_bounds _ _ _ _ _ _ Hrun Hst) as (Hint & Hmin & Hmax & Hb).
  fold values in Htags, Hint, Hmin, Hmax, Hb. fold ints in Hint, Hmin, Hmax, Hb.
  rewrite resolve_integer_tags.
  2:{ apply tags_int_or_null; [by apply Hint |].
      rewrite Htags. intros t Ht.
      apply elem_of_list_to_set, list_elem_of_fmap in Ht as (v & -> & Hv).
      rewrite Forall_forall in Hvals. destruct (Hvals v Hv) as [Hi | ->].
      - apply classify_int in Hi. rewrite Hi. set_solver.
      - cbn. set_solver. }
  destruct (int_min st) as [lo |] eqn:Elo;
    [| exfalso; apply Hints; by apply Hmin].
  destruct (int_max st) as [hi |] eqn:Ehi;
    [| exfalso; apply Hints; by apply Hmax].
  destruct (Hb lo hi eq_refl eq_refl) as (Hlo & Hhi & Hle & Hall).
  change INT32_MIN with (-2147483648). change INT32_MAX with 2147483647.
  change INT64_MIN with (-9223372036854775808).
  change INT64_MAX with 9223372036854775807.
  case_bool_decide as H32.
  - rewrite Forall_forall in H32.
    pose proof (H32 lo Hlo). pose proof (H32 hi Hhi). by_leb.
  - case_bool_decide as H64.
    + rewrite Forall_forall in H64.
      pose proof (H64 lo Hlo). pose proof (H64 hi Hhi).
      assert (¬ (-2147483648 ≤ lo ∧ hi ≤ 2147483647)) as Hout.
      { intros [? ?]. apply H32, Forall_forall. intros z Hz.
        specialize (Hall z Hz). lia. }
      by_leb.
    + assert (¬ (-9223372036854775808 ≤ lo ∧ hi ≤ 9223372036854775807))
        as Hout.
      { intros [? ?]. apply H64, Forall_forall. intros z Hz.
        specialize (Hall z Hz). lia. }
      by_leb.
Qed.

(** X12: a field that holds only strings and nulls in the sample, and at
    least one string, becomes NCHAR(1) when no string is longer than 1,
    else NVARCHAR(255) when none is longer than 255, else
    NVARCHAR(MAX). *)
Theorem X12_string_column (cfg : Config) (docs : list Doc)
    (sample_size : option Z) (k : string) :
  let values := observations k (sample sample_size docs) in
  Forall (fun v => (∃ s, v = PyStr s) ∨ v = PyNone) values →
  (∃ s, PyStr s ∈ values) →
  ∃ fields schema_map,
    infer_schema cfg docs sample_size = Returned (fields, schema_map)
    ∧ k ∈ fields
    ∧ Dict.get k schema_map
      = Some (if bool_decide (Forall (fun v => observed_len v ≤ 1)%nat values)
              then "NCHAR(1)"
              else if bool_decide
                        (Forall (fun v => observed_len v ≤ 255)%nat values)
                   then "NVARCHAR(255)"
                   else "NVARCHAR(MAX)").
Proof.
  intros values Hvals [s Hs].
  destruct (analyze_collection_schema_spec docs sample_size)
    as (stats & Hrun & _ & Hget).
  destruct (Dict.get k stats) as [st |] eqn:Hst.
  2:{ rewrite Hget in Hst. fold values in Hst.
      destruct values; [by apply elem_of_nil in Hs | done]. }
  destruct (schema_lookup cfg _ _ _ _ _ _ Hrun Hst)
    as (fields & schema_map & Hsch & Hk & Hty).
  exists fields, schema_map. split; [done |]. split; [done |].
  rewrite Hty. f_equal.
  destruct (field_tags _ _ _ _ _ _ Hrun Hst) as [Htags _].
  destruct (field_max_str_len _ _ _ _ _ _ Hrun Hst) as [Hall Hatt].
  fold values in Htags, Hall, Hatt.
  rewrite resolve_text_tags.
  2:{ rewrite Htags. intros t Ht.
      apply elem_of_list_to_set, list_elem_of_fmap in Ht as (v & -> & Hv).
      rewrite Forall_forall in Hvals.
      destruct (Hvals v Hv) as [[s' ->] | ->]; cbn; set_solver. }
  2:{ apply tags_str_or_null.
      - rewrite Htags. apply elem_of_list_to_set, list_elem_of_fmap.
        by exists (PyStr s).
      - rewrite Htags. intros t Ht.
        apply elem_of_list_to_set, list_elem_of_fmap in Ht as (v & -> & Hv).
        rewrite Forall_forall in Hvals.
        destruct (Hvals v Hv) as [[s' ->] | ->]; cbn; set_solver. }
  assert (∀ n : nat, Forall (fun v => observed_len v ≤ n)%nat values
                     ↔ (max_str_len st ≤ n)%nat) as Hmax.
  { intros n. rewrite Forall_forall. split.
    - intros Hn. destruct Hatt as [-> | (v & Hv & <-)]; [lia | by apply Hn].
    - intros Hn v Hv. specialize (Hall v Hv). lia. }
  case_bool_decide as H1.
  - apply Hmax in H1. by_leb.
  - rewrite Hmax in H1. case_bool_decide as H255.
    + apply Hmax in H255. by_leb.
    + rewrite Hmax in H255. by_leb.
Qed.

(** ** More on the value converter and the rows *)

Section ConverterMore.
Variable json_dumps : PyValue → string.

(** X13: converting a converted value changes nothing. *)
Theorem X13_convert_idempotent (value : PyValue) :
  convert_value_for_sql json_dumps (convert_value_for_sql json_dumps value)
  = convert_value_for_sql json_dumps value.
Proof. by destruct value as [| | | | |[]| | | | | | | | | |]. Qed.

(** A converted value is never an object id, a Decimal128, a list, a
    dict, a bytearray or a memoryview; it is None only for None; an
    object id becomes its text, a Decimal128 a Decimal, and the three
    binary classes become bytes of the same content. *)
Lemma converted_classes (value : PyValue) :
  type_of (convert_value_for_sql json_dumps value)
  ∈ [NoneType; Cbool; Cint; CInt64; Cfloat; CDecimal; Cdatetime; Cstr;
     Cbytes; Cobject]
  ∧ (convert_value_for_sql json_dumps value = PyNone ↔ value = PyNone)
  ∧ (∀ hex, value = PyObjectId hex →
            convert_value_for_sql json_dumps value = PyStr hex)
  ∧ (isinstance value CDecimal128 = true →
     isinstance (convert_value_for_sql json_dumps value) CDecimal = true)
  ∧ (∀ data, value = PyBytes data ∨ value = PyByteArray data
             ∨ value = PyMemoryView data →
             convert_value_for_sql json_dumps value = PyBytes data).
Proof.
  split; [| split; [| split; [| split]]].
  - destruct value as [| | | | |[]| | | | | | | | | |]; cbn;
      repeat (first [by left | right]).
  - by destruct value as [| | | | |[]| | | | | | | | | |].
  - by intros hex ->.
  - by destruct value as [| | | | |[]| | | | | | | | | |].
  - by intros data [-> | [-> | ->]].
Qed.

(** X15: a row has one value per column, the converted value the document
    holds under the column, None when the document lacks the key; a
    position is None only when the key is missing or holds None; and the
    keys of the document that are not columns play no part. *)
Theorem X15_row_of_document (insert_cols : list string) (doc : Doc) :
  length (row_values json_dumps insert_cols doc) = length insert_cols
  ∧ (∀ i c, insert_cols !! i = Some c →
       row_values json_dumps insert_cols doc !! i
       = Some (match Dict.get c doc with
               | Some v => convert_value_for_sql json_dumps v
               | None => PyNone
               end))
  ∧ (∀ i c, insert_cols !! i = Some c →
       (row_values json_dumps insert_cols doc !! i = Some PyNone
        ↔ Dict.get c doc = None ∨ Dict.get c doc = Some PyNone))
  ∧ (∀ doc', (∀ c, c ∈ insert_cols → Dict.get c doc' = Dict.get c doc) →
       row_values json_dumps insert_cols doc'
       = row_values json_dumps insert_cols doc).
Proof.
  assert (∀ i c, insert_cols !! i = Some c →
            row_values json_dumps insert_cols doc !! i
            = Some (match Dict.get c doc with
                    | Some v => convert_value_for_sql json_dumps v
                    | None => PyNone
                    end)) as Hrow.
  { intros i c Hc. unfold row_values, doc_get.
    change (map ?f insert_cols) with (f <$> insert_cols).
    rewrite list_lookup_fmap, Hc. cbn. by destruct (Dict.get c doc). }
  split; [apply length_map |]. split; [exact Hrow |]. split.
  - intros i c Hc. rewrite (Hrow i c Hc).
    destruct (Dict.get c doc) as [v |]; [| naive_solver].
    split.
    + intros [= E]. right. f_equal.
      by apply (converted_classes v).
    + intros [? | [= ->]]; done.
  - intros doc' Hsame. unfold row_values, doc_get.
    apply map_ext_in. intros c Hc%list_elem_of_In. by rewrite Hsame.
Qed.
End ConverterMore.

(** ** More on the batch loader *)

Ltac count_exec :=
  repeat first [ rewrite filter_cons_True by (cbn; congruence)
               | rewrite filter_cons_False by (cbn; congruence) ];
  rewrite ?filter_nil; cbn [length]; lia.

Ltac last_two :=
  match goal with
  | |- context [last (?h ++ [?a; ?b])] =>
      replace (h ++ [a; b]) with ((h ++ [a]) ++ [b])
        by (by rewrite <- app_assoc)
  end.

Section LoaderMore.
Variable cfg : Config.
Variable json_dumps : PyValue → string.
Variable sink : Sink.
Variable insert_stmt : string.
Variable insert_cols : list string.

(** The two ways a row can go. *)
Lemma insert_row_cases (values : list PyValue) (h : list SinkEvent) :
  insert_row json_dumps sink insert_stmt values h
  = (h ++ [mkEvent (Execute insert_stmt values) false], Returned tt)
  ∨ ∃ r, insert_row json_dumps sink insert_stmt values h
         = (h ++ [mkEvent (Execute insert_stmt values) true;
                  mkEvent (Execute insert_stmt (safe_vals json_dumps values)) r],
            if r then Raised SinkError else Returned tt).
Proof.
  destruct (sink h (Execute insert_stmt values)) eqn:E1.
  - right. eexists.
    pose proof (insert_row_retry json_dumps sink insert_stmt values h E1) as Hr.
    cbv zeta in Hr. rewrite Hr, <- app_assoc. reflexivity.
  - left. by apply insert_row_direct.
Qed.

(** The calls of the loop, whatever its outcome: it appends to the
    trace, every call is a commit or the insert statement with one
    parameter per column, and it executes at most two inserts per
    document. *)
Lemma insert_loop_calls (docs : list Doc) :
  ∀ (batch rows : nat) (h : list SinkEvent),
    ∃ t, (insert_loop cfg json_dumps sink insert_stmt insert_cols
            docs batch rows h).1 = h ++ t
      ∧ Forall (fun e => call e = Commit
                         ∨ ∃ params, call e = Execute insert_stmt params
                                     ∧ length params = length insert_cols) t
      ∧ (length (filter (fun e => is_execute e = true) t) ≤ 2 * length docs)%nat.
Proof.
  induction docs as [| doc docs IH]; intros batch rows h.
  - exists []. cbn. rewrite app_nil_r. split; [done |]. split; [done | lia].
  - rewrite insert_loop_cons.
    set (values := row_values json_dumps insert_cols doc).
    assert (∀ r, ∃ params,
              call (mkEvent (Execute insert_stmt values) r)
              = Execute insert_stmt params
              ∧ length params = length insert_cols) as Hev.
    { intros r. exists values. split; [done | apply length_map]. }
    assert (∀ r, ∃ params,
              call (mkEvent (Execute insert_stmt (safe_vals json_dumps values)) r)
              = Execute insert_stmt params
              ∧ length params = length insert_cols) as Hev'.
    { intros r. eexists. split; [done |].
      unfold safe_vals. rewrite length_map. apply length_map. }
    destruct (insert_row_cases values h) as [-> | [r ->]].
    + case_bool_decide.
      * destruct (sink _ Commit).
        -- eexists [_; _]. cbn [fst]. rewrite <- app_assoc.
           split; [done |]. split; [| count_exec].
           constructor; [right; apply Hev |]. constructor; [by left | done].
        -- destruct (IH 0%nat (S rows)
                       ((h ++ [mkEvent (Execute insert_stmt values) false])
                          ++ [mkEvent Commit false])) as (t & -> & Hte & Htc).
           eexists (_ :: _ :: t). rewrite <- !app_assoc. split; [done |]. split.
           ++ constructor; [right; apply Hev |]. constructor; [by left | done].
           ++ count_exec.
      * destruct (IH (S batch) (S rows)
                    (h ++ [mkEvent (Execute insert_stmt values) false]))
          as (t & -> & Hte & Htc).
        eexists (_ :: t). rewrite <- !app_assoc. split; [done |]. split.
        -- constructor; [right; apply Hev | done].
        -- count_exec.
    + destruct r.
      { eexists [_; _]. split; [done |]. split; [| count_exec].
        constructor; [right; apply Hev |].
        constructor; [right; apply Hev' | done]. }
      case_bool_decide.
      * destruct (sink _ Commit).
        -- eexists [_; _; _]. cbn [fst]. rewrite <- app_assoc.
           split; [done |]. split; [| count_exec].
           constructor; [right; apply Hev |].
           constructor; [right; apply Hev' |]. constructor; [by left | done].
        -- destruct (IH 0%nat (S rows)
                       ((h ++ [mkEvent (Execute insert_stmt values) true;
                               mkEvent (Execute insert_stmt
                                          (safe_vals json_dumps values)) false])
                          ++ [mkEvent Commit false])) as (t & -> & Hte & Htc).
           eexists (_ :: _ :: _ :: t). rewrite <- !app_assoc.
           split; [done |]. split.
           ++ constructor; [right; apply Hev |].
              constructor; [right; apply Hev' |].
              constructor; [by left | done].
           ++ count_exec.
      * destruct (IH (S batch) (S rows)
                    (h ++ [mkEvent (Execute insert_stmt values) true;
                           mkEvent (Execute insert_stmt
                                      (safe_vals json_dumps values)) false]))
          as (t & -> & Hte & Htc).
        eexists (_ :: _ :: t). rewrite <- !app_assoc. split; [done |]. split.
        -- constructor; [right; apply Hev |].
           constructor; [right; apply Hev' | done].
        -- count_exec.
Qed.

(** The outcome of the loop: it raises only a sink error, and then the
    last call of the trace is the one that raised; when it returns, the
    trace is the one it was given or its last call did not raise. *)
Lemma insert_loop_outcome (docs : list Doc) :
  ∀ (batch rows : nat) (h : list SinkEvent),
    match insert_loop cfg json_dumps sink insert_stmt insert_cols
            docs batch rows h with
    | (h', Returned _) => h' = h ∨ ∃ e, last h' = Some e ∧ raised e = false
    | (h', Raised x) => x = SinkError ∧ ∃ e, last h' = Some e ∧ raised e = true
    end.
Proof.
  induction docs as [| doc docs IH]; intros batch rows h.
  - by left.
  - rewrite insert_loop_cons.
    destruct (insert_row_cases (row_values json_dumps insert_cols doc) h)
      as [-> | [[] ->]].
    + case_bool_decide.
      * destruct (sink _ Commit).
        { split; [done |]. eexists. by rewrite last_snoc. }
        specialize (IH 0%nat (S rows)
                      ((h ++ [mkEvent (Execute insert_stmt
                                         (row_values json_dumps insert_cols doc))
                                false]) ++ [mkEvent Commit false])).
        destruct (insert_loop _ _ _ _ _ _ _ _ _) as [h' [n | x]]; [| done].
        right. destruct IH as [-> | IH]; [| done].
        eexists. by rewrite last_snoc.
      * specialize (IH (S batch) (S rows)
                      (h ++ [mkEvent (Execute insert_stmt
                                        (row_values json_dumps insert_cols doc))
                               false])).
        destruct (insert_loop _ _ _ _ _ _ _ _ _) as [h' [n | x]]; [| done].
        right. destruct IH as [-> | IH]; [| done].
        eexists. by rewrite last_snoc.
    + split; [done |]. eexists. last_two. by rewrite last_snoc.
    + case_bool_decide.
      * destruct (sink _ Commit).
        { split; [done |]. eexists. by rewrite last_snoc. }
        match goal with
        | |- context [insert_loop _ _ _ _ _ docs ?b ?r ?hh] =>
            specialize (IH b r hh)
        end.
        destruct (insert_loop _ _ _ _ _ _ _ _ _) as [h' [n | x]]; [| done].
        right. destruct IH as [-> | IH]; [| done].
        eexists. by rewrite last_snoc.
      * match goal with
        | |- context [insert_loop _ _ _ _ _ docs ?b ?r ?hh] =>
            specialize (IH b r hh)
        end.
        destruct (insert_loop _ _ _ _ _ _ _ _ _) as [h' [n | x]]; [| done].
        right. destruct IH as [-> | IH]; [| done].
        eexists. last_two. by rewrite last_snoc.
Qed.
End LoaderMore.

(** X16: a run never raises [KeyError]; when it raises, the exception is
    the sink's and the call that raised is the last one made; when it
    returns, the last call is a commit that did not raise. *)
Theorem X16_run_outcome (cfg : Config) (json_dumps : PyValue → string)
    (sink : Sink) (docs : list Doc) (table_name : string)
    (sample_size : option Z) :
  match create_table_and_insert cfg json_dumps sink docs table_name
          sample_size [] with
  | (trace, Returned _) => last trace = Some (mkEvent Commit false)
  | (trace, Raised x) =>
      x = SinkError ∧ ∃ e, last trace = Some e ∧ raised e = true
  end.
Proof.
  destruct (analyze_collection_schema_spec docs sample_size)
    as (stats & Hscan & Hd & _).
  destruct (infer_schema_spec cfg docs sample_size stats _ Hscan Hd)
    as (tys & Hs & _).
  rewrite (create_table_and_insert_unfold _ _ _ _ _ _ _ _ _ Hs).
  cbv zeta. cbn [app].
  destruct (sink [] _); [split; [done |]; by eexists |].
  destruct (sink [_] Commit); [split; [done |]; by eexists |].
  rewrite insert_all_unfold.
  match goal with
  | |- context [insert_loop ?c ?j ?s ?st ?cols ?d ?b ?r ?h] =>
      pose proof (insert_loop_outcome c j s st cols d b r h) as Hout
  end.
  destruct (insert_loop _ _ _ _ _ _ _ _ _) as [h' [n | x]]; [| done].
  destruct (sink h' Commit).
  - split; [done |]. eexists. by rewrite last_snoc.
  - by rewrite last_snoc.
Qed.

(** X17: in every run the first call is the CREATE TABLE text; every
    later call is a commit or the insert statement with exactly one
    parameter per column; there is at least one column; and at most two
    inserts are executed per document. *)
Theorem X17_run_calls (cfg : Config) (json_dumps : PyValue → string)
    (sink : Sink) (docs : list Doc) (table_name : string)
    (sample_size : option Z) :
  ∃ fields schema_map r trace outcome,
    infer_schema cfg docs sample_size = Returned (fields, schema_map)
    ∧ create_table_and_insert cfg json_dumps sink docs table_name
        sample_size []
      = (mkEvent (Execute (build_create_table_statement cfg table_name
                             schema_map) []) r :: trace,
         outcome)
    ∧ Forall (fun e =>
                call e = Commit
                ∨ ∃ params,
                    call e = Execute (insert_statement table_name fields) params
                    ∧ length params = length fields) trace
    ∧ (1 ≤ length fields)%nat
    ∧ (length (filter (fun e => is_execute e = true) trace)
       ≤ 2 * length docs)%nat.
Proof.
  destruct (analyze_collection_schema_spec docs sample_size)
    as (stats & Hscan & Hd & _).
  destruct (infer_schema_spec cfg docs sample_size stats _ Hscan Hd)
    as (tys & Hs & _).
  exists (ordered_fields stats), (zip (ordered_fields stats) tys).
  rewrite (create_table_and_insert_unfold _ _ _ _ _ _ _ _ _ Hs).
  cbv zeta. cbn [app].
  assert (1 ≤ length (ordered_fields stats))%nat as Hlen by (cbn; lia).
  destruct (sink [] _).
  { eexists _, [], _. split; [done |]. split; [done |].
    split; [done |]. split; [done | cbn; lia]. }
  destruct (sink [_] Commit).
  { eexists _, [_], _. split; [done |]. split; [done |].
    split; [by repeat constructor |]. split; [done | count_exec]. }
  rewrite insert_all_unfold.
  match goal with
  | |- context [insert_loop ?c ?j ?s ?st ?cols ?d ?b ?r ?h] =>
      destruct (insert_loop_calls c j s st cols d b r h) as (t & Ht & Hte & Htc)
  end.
  destruct (insert_loop _ _ _ _ _ _ _ _ _) as [h' [n | x]];
    cbn [fst] in Ht; subst h'.
  - destruct (sink _ Commit).
    + eexists _, (_ :: t ++ [_]), _. split; [done |].
      split; [by rewrite <- app_assoc |].
      split.
      { constructor; [by left |]. apply Forall_app. split; [done |].
        by repeat constructor. }
      split; [done |].
      rewrite filter_cons_False by (cbn; congruence).
      rewrite filter_app, length_app. count_exec.
    + eexists _, (_ :: t ++ [_]), _. split; [done |].
      split; [by rewrite <- app_assoc |].
      split.
      { constructor; [by left |]. apply Forall_app. split; [done |].
        by repeat constructor. }
      split; [done |].
      rewrite filter_cons_False by (cbn; congruence).
      rewrite filter_app, length_app. count_exec.
  - eexists _, (_ :: t), _. split; [done |]. split; [done |].
    split; [constructor; [by left | done] |]. split; [done |].
    by rewrite filter_cons_False by (cbn; congruence).
Qed.

(** X18: on an empty collection the schema is the single column ["_id"]
    NVARCHAR(24); a run whose three calls do not raise creates that
    table, commits twice, inserts nothing and reports 0 rows. *)
Theorem X18_empty_collection (cfg : Config) (json_dumps : PyValue → string)
    (sink : Sink) (table_name : string) (sample_size : option Z) :
  let ddl := Execute (build_create_table_statement cfg table_name
                        [("_id", "NVARCHAR(24)")]) [] in
  infer_schema cfg [] sample_size
  = Returned (["_id"], [("_id", "NVARCHAR(24)")])
  ∧ (sink [] ddl = false →
     sink [mkEvent ddl false] Commit = false →
     sink [mkEvent ddl false; mkEvent Commit false] Commit = false →
     create_table_and_insert cfg json_dumps sink [] table_name sample_size []
     = ([mkEvent ddl false; mkEvent Commit false; mkEvent Commit false],
        Returned 0%nat)).
Proof.
  intros ddl.
  assert (infer_schema cfg [] sample_size
          = Returned (["_id"], [("_id", "NVARCHAR(24)")])) as Hs by done.
  split; [done |]. intros H1 H2 H3.
  rewrite (create_table_and_insert_unfold _ _ _ _ _ _ _ _ _ Hs).
  cbv zeta. fold ddl. cbn [app]. rewrite H1, H2, insert_all_unfold.
  cbn. by rewrite H3.
Qed.

(** ** main *)

Section MainFacts.
Variable cfg : Config.
Variable json_dumps : PyValue → string.
Variable sink : Sink.
Variable mongo_db : string → list Doc.

(** The loop strips the names and skips the empty ones. *)
Lemma migrate_collections_clean (names : list string) (h : list SinkEvent) :
  migrate_collections cfg json_dumps sink mongo_db names h
  = run_collections cfg json_dumps sink mongo_db
      (filter (fun name => name ≠ "") (strip <$> names)) h.
Proof.
  revert h. induction names as [| name names IH]; intros h; [done |].
  cbn [migrate_collections fmap list_fmap]. rewrite filter_cons.
  case_bool_decide as E.
  - rewrite decide_False by (by intros ?). apply IH.
  - rewrite decide_True by done. cbn [run_collections].
    unfold mbind, Run_bind.
    destruct (create_table_and_insert _ _ _ _ _ _ _) as [h1 [n | x]];
      [apply IH | done].
Qed.

Lemma run_collections_app (pre post : list string) (h h1 : list SinkEvent) :
  run_collections cfg json_dumps sink mongo_db pre h = (h1, Returned tt) →
  run_collections cfg json_dumps sink mongo_db (pre ++ post) h
  = run_collections cfg json_dumps sink mongo_db post h1.
Proof.
  revert h. induction pre as [| name pre IH]; intros h.
  - cbn. by intros [= ->].
  - cbn [app run_collections]. unfold mbind, Run_bind.
    destruct (create_table_and_insert _ _ _ _ _ _ _) as [h0 [n | x]];
      [apply IH | done].
Qed.
End MainFacts.

(** X19: [main] depends on the names string only through its stripped,
    non-empty pieces: blanks around a name, empty pieces and a trailing
    semicolon change nothing. *)
Theorem X19_main_names (cfg : Config) (json_dumps : PyValue → string)
    (sink : Sink) (mongo_db : string → list Doc) (names names' : string) :
  collection_names_of names = collection_names_of names' →
  ∀ h, main cfg json_dumps sink mongo_db names h
       = main cfg json_dumps sink mongo_db names' h.
Proof.
  intros E h. unfold main. rewrite !migrate_collections_clean.
  fold (collection_names_of names). fold (collection_names_of names').
  by rewrite E.
Qed.

(** X20: when the migration of a collection raises, [main] raises with
    it at once: the collections named after it are not migrated. *)
Theorem X20_main_stops_at_first_error (cfg : Config)
    (json_dumps : PyValue → string) (sink : Sink)
    (mongo_db : string → list Doc) (names : string)
    (pre post : list string) (name : string) (h h1 h2 : list SinkEvent)
    (e : PyExn) :
  collection_names_of names = pre ++ name :: post →
  run_collections cfg json_dumps sink mongo_db pre h = (h1, Returned tt) →
  create_table_and_insert cfg json_dumps sink (mongo_db name) name
    (SAMPLE_SIZE cfg) h1 = (h2, Raised e) →
  main cfg json_dumps sink mongo_db names h = (h2, Raised e).
Proof.
  intros Hnames Hpre Hfail. unfold main. rewrite migrate_collections_clean.
  fold (collection_names_of names). rewrite Hnames.
  rewrite (run_collections_app _ _ _ _ _ _ _ _ Hpre).
  cbn [run_collections]. unfold mbind, Run_bind. by rewrite Hfail.
Qed.

Section QuietSink.
Variable cfg : Config.
Variable json_dumps : PyValue → string.
Variable sink : Sink.
Hypothesis sink_quiet : ∀ h c, sink h c = false.

Lemma insert_loop_quiet (insert_stmt : string) (insert_cols : list string)
    (docs : list Doc) :
  ∀ batch rows, ∃ t, ∀ h,
    insert_loop cfg json_dumps sink insert_stmt insert_cols docs batch rows h
    = (h ++ t, Returned (rows + length docs)%nat).
Proof.
  induction docs as [| doc docs IH]; intros batch rows.
  - exists []. intros h. cbn. by rewrite app_nil_r, Nat.add_0_r.
  - destruct (decide (Z.of_nat (S batch) >= BATCH_INSERT cfg)) as [Hfull | Hfull].
    + destruct (IH 0%nat (S rows)) as [t Ht].
      eexists (_ :: _ :: t). intros h. rewrite insert_loop_cons.
      rewrite (insert_row_direct _ _ _ _ _ (sink_quiet _ _)).
      rewrite bool_decide_eq_true_2 by done.
      rewrite sink_quiet, Ht, <- !app_assoc. cbn [app length].
      by rewrite Nat.add_succ_r.
    + destruct (IH (S batch) (S rows)) as [t Ht].
      eexists (_ :: t). intros h. rewrite insert_loop_cons.
      rewrite (insert_row_direct _ _ _ _ _ (sink_quiet _ _)).
      rewrite bool_decide_eq_false_2 by done.
      rewrite Ht, <- !app_assoc. cbn [app length].
      by rewrite Nat.add_succ_r.
Qed.

Lemma create_table_and_insert_quiet (docs : list Doc) (table_name : string)
    (sample_size : option Z) (h : list SinkEvent) :
  create_table_and_insert cfg json_dumps sink docs table_name sample_size h
  = (h ++ (create_table_and_insert cfg json_dumps sink docs table_name
             sample_size []).1,
     Returned (length docs)).
Proof.
  destruct (analyze_collection_schema_spec docs sample_size)
    as (stats & Hscan & Hd & _).
  destruct (infer_schema_spec cfg docs sample_size stats _ Hscan Hd)
    as (tys & Hs & _).
  rewrite !(create_table_and_insert_unfold _ _ _ _ _ _ _ _ _ Hs).
  cbv zeta. rewrite !sink_quiet, !insert_all_unfold.
  destruct (insert_loop_quiet
              (insert_statement table_name (ordered_fields stats))
              (ordered_fields stats) docs 0 0) as [t Ht].
  rewrite !Ht, !sink_quiet. cbn [fst app]. by rewrite <- !app_assoc.
Qed.

Lemma run_collections_quiet (mongo_db : string → list Doc)
    (names : list string) (h : list SinkEvent) :
  run_collections cfg json_dumps sink mongo_db names h
  = (h ++ concat
            (map (fun name =>
                    (create_table_and_insert cfg json_dumps sink
                       (mongo_db name) name (SAMPLE_SIZE cfg) []).1)
                 names),
     Returned tt).
Proof.
  revert h. induction names as [| name names IH]; intros h.
  - cbn. by rewrite app_nil_r.
  - cbn [run_collections map concat]. unfold mbind, Run_bind.
    rewrite create_table_and_insert_quiet, IH. by rewrite <- app_assoc.
Qed.
End QuietSink.

(** X21: with a sink that never raises, [main] returns, and its calls
    are those of the migrations of the named collections, one collection
    after the other in the order of the names. *)
Theorem X21_main_runs_all (cfg : Config) (json_dumps : PyValue → string)
    (sink : Sink) (mongo_db : string → list Doc) (names : string)
    (h : list SinkEvent) :
  (∀ h c, sink h c = false) →
  main cfg json_dumps sink mongo_db names h
  = (h ++ concat
            (map (fun name =>
                    (create_table_and_insert cfg json_dumps sink
                       (mongo_db name) name (SAMPLE_SIZE cfg) []).1)
                 (collection_names_of names)),
     Returned tt).
Proof.
  intros Hq. unfold main. rewrite migrate_collections_clean.
  fold (collection_names_of names). by apply run_collections_quiet.
Qed.

(** X22: the columns are ["_id"] and the keys the sampled documents hold,
    and no others: a key that only documents after the sample hold is not
    a column. *)
Theorem X22_columns_are_sampled_keys (cfg : Config) (docs : list Doc)
    (sample_size : option Z) :
  ∃ fields schema_map,
    infer_schema cfg docs sample_size = Returned (fields, schema_map)
    ∧ Dict.keys schema_map = fields
    ∧ ∀ k, k ∈ fields
           ↔ k = "_id"
             ∨ ∃ doc, doc ∈ sample sample_size docs ∧ k ∈ Dict.keys doc.
Proof.
  destruct (analyze_collection_schema_spec docs sample_size)
    as (stats & Hscan & Hd & Hget).
  destruct (infer_schema_spec cfg docs sample_size stats _ Hscan Hd)
    as (tys & Hs & Htys).
  exists (ordered_fields stats), (zip (ordered_fields stats) tys).
  split; [done |]. split.
  - unfold Dict.keys. change (map fst ?l) with (fst <$> l).
    apply fst_zip. apply Forall2_length in Htys. lia.
  - intros k. rewrite elem_of_ordered_fields, elem_of_keys, Hget.
    rewrite <- observations_nil, <- aggregate_is_Some.
    destruct (aggregate None _); cbn; split; intros [? | [? ?]];
      (by left) || (right; by eexists) || done.
Qed.

Section RowsInserted.
Variable cfg : Config.
Variable json_dumps : PyValue → string.
Variable sink : Sink.
Variable insert_stmt : string.
Variable insert_cols : list string.

Lemma executed_params_app (t1 t2 : list SinkEvent) :
  executed_params (t1 ++ t2) = executed_params t1 ++ executed_params t2.
Proof. unfold executed_params. apply omap_app. Qed.

(** The rows the loop inserts are the rows of the documents it got
    through, in their order; a loop that returns got through all. *)
Lemma insert_loop_rows (docs : list Doc) :
  ∀ (batch rows : nat) (h : list SinkEvent),
    ∃ t m,
      (insert_loop cfg json_dumps sink insert_stmt insert_cols
         docs batch rows h).1 = h ++ t
      ∧ (m ≤ length docs)%nat
      ∧ executed_params t
        = row_values json_dumps insert_cols <$> take m docs
      ∧ (∀ n, (insert_loop cfg json_dumps sink insert_stmt insert_cols
                 docs batch rows h).2 = Returned n → m = length docs).
Proof.
  induction docs as [| doc docs IH]; intros batch rows h.
  - exists [], 0%nat. cbn. by rewrite app_nil_r.
  - rewrite insert_loop_cons.
    destruct (insert_row_cases json_dumps sink insert_stmt
                (row_values json_dumps insert_cols doc) h)
      as [-> | [[] ->]].
    + case_bool_decide.
      * destruct (sink _ Commit).
        -- eexists [_; _], 1%nat. cbn [fst snd]. rewrite <- app_assoc.
           split; [done |]. split; [cbn; lia |]. split; [done | done].
        -- match goal with
           | |- context [insert_loop _ _ _ _ _ docs ?b ?r ?hh] =>
               destruct (IH b r hh) as (t & m & Ht & Hm & Hrows & Hret)
           end.
           destruct (insert_loop _ _ _ _ _ _ _ _ _) as [h' o].
           cbn [fst snd] in *. subst h'.
           eexists (_ :: _ :: t), (S m). rewrite <- !app_assoc.
           split; [done |]. split; [cbn; lia |]. split.
           ++ cbn. by rewrite <- Hrows.
           ++ intros n Hn. by rewrite (Hret n Hn).
      * match goal with
        | |- context [insert_loop _ _ _ _ _ docs ?b ?r ?hh] =>
            destruct (IH b r hh) as (t & m & Ht & Hm & Hrows & Hret)
        end.
        destruct (insert_loop _ _ _ _ _ _ _ _ _) as [h' o].
        cbn [fst snd] in *. subst h'.
        eexists (_ :: t), (S m). rewrite <- !app_assoc.
        split; [done |]. split; [cbn; lia |]. split.
        -- cbn. by rewrite <- Hrows.
        -- intros n Hn. by rewrite (Hret n Hn).
    + eexists [_; _], 0%nat. cbn [fst snd].
      split; [done |]. split; [cbn; lia |]. split; [done | done].
    + rewrite safe_vals_row_values. case_bool_decide.
      * destruct (sink _ Commit).
        -- eexists [_; _; _], 1%nat. cbn [fst snd]. rewrite <- app_assoc.
           split; [done |]. split; [cbn; lia |]. split; [done | done].
        -- match goal with
           | |- context [insert_loop _ _ _ _ _ docs ?b ?r ?hh] =>
               destruct (IH b r hh) as (t & m & Ht & Hm & Hrows & Hret)
           end.
           destruct (insert_loop _ _ _ _ _ _ _ _ _) as [h' o].
           cbn [fst snd] in *. subst h'.
           eexists (_ :: _ :: _ :: t), (S m). rewrite <- !app_assoc.
           split; [done |]. split; [cbn; lia |]. split.
           ++ cbn. by rewrite <- Hrows.
           ++ intros n Hn. by rewrite (Hret n Hn).
      * match goal with
        | |- context [insert_loop _ _ _ _ _ docs ?b ?r ?hh] =>
            destruct (IH b r hh) as (t & m & Ht & Hm & Hrows & Hret)
        end.
        destruct (insert_loop _ _ _ _ _ _ _ _ _) as [h' o].
        cbn [fst snd] in *. subst h'.
        eexists (_ :: _ :: t), (S m). rewrite <- !app_assoc.
        split; [done |]. split; [cbn; lia |]. split.
        -- cbn. by rewrite <- Hrows.
        -- intros n Hn. by rewrite (Hret n Hn).
Qed.
End RowsInserted.

(** X23: the rows a run inserts are, in order, the rows of the first
    documents of the collection, each once, whether the direct attempt or
    the retry inserted it; a run that returns has inserted the rows of
    all the documents. *)
Theorem X23_rows_inserted_in_order (cfg : Config)
    (json_dumps : PyValue → string) (sink : Sink) (docs : list Doc)
    (table_name : string) (sample_size : option Z) :
  ∃ fields schema_map r trace outcome m,
    infer_schema cfg docs sample_size = Returned (fields, schema_map)
    ∧ create_table_and_insert cfg json_dumps sink docs table_name
        sample_size []
      = (mkEvent (Execute (build_create_table_statement cfg table_name
                             schema_map) []) r :: trace,
         outcome)
    ∧ (m ≤ length docs)%nat
    ∧ executed_params trace = row_values json_dumps fields <$> take m docs
    ∧ (∀ n, outcome = Returned n →
            executed_params trace = row_values json_dumps fields <$> docs).
Proof.
  destruct (analyze_collection_schema_spec docs sample_size)
    as (stats & Hscan & Hd & _).
  destruct (infer_schema_spec cfg docs sample_size stats _ Hscan Hd)
    as (tys & Hs & _).
  exists (ordered_fields stats), (zip (ordered_fields stats) tys).
  rewrite (create_table_and_insert_unfold _ _ _ _ _ _ _ _ _ Hs).
  cbv zeta. cbn [app].
  destruct (sink [] _).
  { eexists _, [], _, 0%nat. split; [done |]. split; [done |].
    split; [lia |]. split; [done | done]. }
  destruct (sink [_] Commit).
  { eexists _, [_], _, 0%nat. split; [done |]. split; [done |].
    split; [lia |]. split; [done | done]. }
  rewrite insert_all_unfold.
  match goal with
  | |- context [insert_loop ?c ?j ?s ?st ?cols ?d ?b ?r ?h] =>
      destruct (insert_loop_rows c j s st cols d b r h)
        as (t & m & Ht & Hm & Hrows & Hret)
  end.
  destruct (insert_loop _ _ _ _ _ _ _ _ _) as [h' [n | x]];
    cbn [fst snd] in *; subst h'.
  - specialize (Hret n eq_refl). subst m. rewrite firstn_all in Hrows.
    assert (∀ e, call e = Commit →
              executed_params (mkEvent Commit false :: t ++ [e])
              = row_values json_dumps (ordered_fields stats) <$> docs) as Hall.
    { intros [[] ?] [=].
      change (executed_params (?e :: ?l)) with (executed_params l).
      by rewrite executed_params_app, Hrows, app_nil_r. }
    destruct (sink _ Commit).
    + eexists _, (_ :: t ++ [_]), _, (length docs). split; [done |].
      split; [by rewrite <- app_assoc |]. split; [done |].
      rewrite firstn_all. split; [by apply Hall | done].
    + eexists _, (_ :: t ++ [_]), _, (length docs). split; [done |].
      split; [by rewrite <- app_assoc |]. split; [done |].
      rewrite firstn_all. split; [by apply Hall | intros; by apply Hall].
  - eexists _, (_ :: t), _, m. split; [done |]. split; [done |].
    split; [done |]. split; [done | done].
Qed.

(** ** The scanner and the converter, as stated *)

(** X7: the tags of a field are exactly the tags of the values the sample
    holds under its key: a tag is in the set when one of these values has
    it, and the set is not empty. *)
Theorem X7_field_tags (docs : list Doc) (sample_size : option Z)
    (stats : Stats) (total : nat) (k : string) (st : FieldStats) :
  analyze_collection_schema docs sample_size = Returned (stats, total) →
  Dict.get k stats = Some st →
  (∀ t, t ∈ types st
        ↔ ∃ v, v ∈ observations k (sample sample_size docs) ∧ classify v = t)
  ∧ types st ≠ ∅.
Proof.
  intros Hrun Hst. destruct (field_tags _ _ _ _ _ _ Hrun Hst) as [Hty Hne].
  split; [| done]. intros t.
  rewrite Hty, elem_of_list_to_set, list_elem_of_fmap. naive_solver.
Qed.

(** X8: the integer bounds of a field are known exactly when the sample
    holds an integer under its key, which is when the field has the int
    tag; they are then the least and the greatest of these integers, so
    the minimum is not above the maximum. *)
Theorem X8_int_bounds (docs : list Doc) (sample_size : option Z)
    (stats : Stats) (total : nat) (k : string) (st : FieldStats) :
  analyze_collection_schema docs sample_size = Returned (stats, total) →
  Dict.get k stats = Some st →
  let ints := omap observed_int (observations k (sample sample_size docs)) in
  (TInt ∈ types st ↔ ints ≠ [])
  ∧ (int_min st = None ↔ ints = [])
  ∧ (int_max st = None ↔ ints = [])
  ∧ ∀ lo hi, int_min st = Some lo → int_max st = Some hi →
      lo ∈ ints ∧ hi ∈ ints ∧ lo ≤ hi ∧ ∀ z, z ∈ ints → lo ≤ z ≤ hi.
Proof.
  intros Hrun Hst. exact (field_int_bounds _ _ _ _ _ _ Hrun Hst).
Qed.

(** X9: the maximum string length of a field is at least the length of
    every string the sample holds under its key, and is the length of
    one of them unless it is 0. *)
Theorem X9_max_str_len (docs : list Doc) (sample_size : option Z)
    (stats : Stats) (total : nat) (k : string) (st : FieldStats) :
  analyze_collection_schema docs sample_size = Returned (stats, total) →
  Dict.get k stats = Some st →
  (∀ v, v ∈ observations k (sample sample_size docs) →
        (observed_len v ≤ max_str_len st)%nat)
  ∧ (max_str_len st = 0%nat
     ∨ ∃ v, v ∈ observations k (sample sample_size docs)
            ∧ observed_len v = max_str_len st).
Proof.
  intros Hrun Hst. exact (field_max_str_len _ _ _ _ _ _ Hrun Hst).
Qed.

(** X14: a converted value is never an object id, a Decimal128, a list, a
    dict, a bytearray or a memoryview; it is None only for None; an
    object id becomes its text, a Decimal128 a Decimal, and the three
    binary classes become bytes of the same content. *)
Theorem X14_converted_classes (json_dumps : PyValue → string)
    (value : PyValue) :
  type_of (convert_value_for_sql json_dumps value)
  ∈ [NoneType; Cbool; Cint; CInt64; Cfloat; CDecimal; Cdatetime; Cstr;
     Cbytes; Cobject]
  ∧ (convert_value_for_sql json_dumps value = PyNone ↔ value = PyNone)
  ∧ (∀ hex, value = PyObjectId hex →
            convert_value_for_sql json_dumps value = PyStr hex)
  ∧ (isinstance value CDecimal128 = true →
     isinstance (convert_value_for_sql json_dumps value) CDecimal = true)
  ∧ (∀ data, value = PyBytes data ∨ value = PyByteArray data
             ∨ value = PyMemoryView data →
             convert_value_for_sql json_dumps value = PyBytes data).
Proof.
  pose proof (converted_classes json_dumps value) as H. exact H.
Qed.

(** Joining the pieces of a split with the separator gives the string
    back. *)
Lemma split_join (sep : Ascii.ascii) (s : string) :
  String.concat (String sep EmptyString) (split sep s) = s.
Proof.
  induction s as [| c s IH]; [done |].
  cbn [split]. case_bool_decide as E.
  - subst c. destruct (split sep s) as [| piece pieces] eqn:Es.
    + cbn in IH. subst s. done.
    + cbn [String.concat]. cbn [String.concat] in IH. by rewrite IH.
  - destruct (split sep s) as [| piece pieces] eqn:Es.
    + cbn in IH. by subst s.
    + destruct pieces as [| piece' pieces]; cbn in *; by rewrite <- IH.
Qed.

(** ** Instances of the further properties *)

Lemma C1_integer_sizing_witness :
  let st := {| types := {[ TInt; TNull ]}; count := 2;
               int_min := Some (-2147483649); int_max := Some 2147483647;
               max_str_len := 0; nullable := Some false |} in
  bounds_ordered st ∧ sql_type_from_stats module_config st = "BIGINT".
Proof.
  intros st.
  assert (bounds_ordered st) as Hord by (vm_compute; discriminate).
  split; [exact Hord |].
  apply (proj2 (C1_integer_sizing module_config) st).
  - right. reflexivity.
  - exact Hord.
  - reflexivity.
  - reflexivity.
Defined.

Lemma X2_json_dominates_witness :
  sql_type_from_stats module_config
    {| types := {[ TJson; TInt ]}; count := 2; int_min := Some 1;
       int_max := Some 1; max_str_len := 0; nullable := Some false |}
  = "NVARCHAR(MAX)".
Proof. apply X2_json_dominates. compute_done. Defined.

Lemma X3_float_dominates_witness :
  sql_type_from_stats module_config
    {| types := {[ TFloat; TStr ]}; count := 2; int_min := None;
       int_max := None; max_str_len := 3; nullable := Some false |}
  = "FLOAT".
Proof. apply X3_float_dominates; compute_done. Defined.

Lemma X4_single_tag_and_null_witness :
  sql_type_from_stats module_config
    {| types := {[ TBool; TNull ]}; count := 2; int_min := None;
       int_max := None; max_str_len := 0; nullable := Some false |}
  = "NVARCHAR(MAX)".
Proof.
  destruct (X4_single_tag_and_null module_config
              {| types := {[ TBool; TNull ]}; count := 2; int_min := None;
                 int_max := None; max_str_len := 0; nullable := Some false |})
    as (_ & _ & _ & _ & _ & H).
  apply (H TBool); [compute_done | reflexivity].
Defined.

Lemma X5_null_keeps_witness :
  sql_type_from_stats module_config
    {| types := {[ TInt; TNull ]}; count := 2; int_min := Some 1;
       int_max := Some 2; max_str_len := 0; nullable := Some false |}
  = sql_type_from_stats module_config
      {| types := {[ TInt ]}; count := 2; int_min := Some 1;
         int_max := Some 2; max_str_len := 0; nullable := Some false |}.
Proof.
  apply (X5_null_keeps_int_str_float module_config _ _ TInt);
    [compute_done | reflexivity ..].
Defined.

Lemma X6_mixed_tags_witness :
  sql_type_from_stats module_config
    {| types := {[ TInt; TStr ]}; count := 3; int_min := Some 1;
       int_max := Some 2; max_str_len := 1; nullable := Some false |}
  = "NVARCHAR(MAX)".
Proof.
  apply (X6_mixed_tags_are_text module_config _ TInt TStr); compute_done.
Defined.

Lemma X7_field_tags_witness :
  ∃ stats total st,
    analyze_collection_schema
      [ [("a", PyInt 5); ("s", PyStr "xy")]; [("a", PyInt64 (-7)); ("s", PyNone)] ]
      None = Returned (stats, total)
    ∧ Dict.get "a" stats = Some st
    ∧ types st ≠ ∅.
Proof.
  eexists _, _, _. split; [reflexivity |]. split; [reflexivity |].
  exact (proj2 (X7_field_tags
                  [ [("a", PyInt 5); ("s", PyStr "xy")];
                    [("a", PyInt64 (-7)); ("s", PyNone)] ]
                  None _ _ "a" _ eq_refl eq_refl)).
Defined.

Lemma X8_int_bounds_witness :
  ∃ stats total st,
    analyze_collection_schema
      [ [("a", PyInt 5); ("s", PyStr "xy")]; [("a", PyInt64 (-7)); ("s", PyNone)] ]
      None = Returned (stats, total)
    ∧ Dict.get "a" stats = Some st
    ∧ (TInt ∈ types st
       ↔ omap observed_int
           (observations "a"
              (sample None
                 [ [("a", PyInt 5); ("s", PyStr "xy")];
                   [("a", PyInt64 (-7)); ("s", PyNone)] ])) ≠ []).
Proof.
  eexists _, _, _. split; [reflexivity |]. split; [reflexivity |].
  exact (proj1 (X8_int_bounds
                  [ [("a", PyInt 5); ("s", PyStr "xy")];
                    [("a", PyInt64 (-7)); ("s", PyNone)] ]
                  None _ _ "a" _ eq_refl eq_refl)).
Defined.

Lemma X9_max_str_len_witness :
  ∃ stats total st,
    analyze_collection_schema
      [ [("a", PyInt 5); ("s", PyStr "xy")]; [("a", PyInt64 (-7)); ("s", PyNone)] ]
      None = Returned (stats, total)
    ∧ Dict.get "s" stats = Some st
    ∧ ∀ v, v ∈ observations "s"
               (sample None
                  [ [("a", PyInt 5); ("s", PyStr "xy")];
                    [("a", PyInt64 (-7)); ("s", PyNone)] ]) →
           (observed_len v ≤ max_str_len st)%nat.
Proof.
  eexists _, _, _. split; [reflexivity |]. split; [reflexivity |].
  exact (proj1 (X9_max_str_len
                  [ [("a", PyInt 5); ("s", PyStr "xy")];
                    [("a", PyInt64 (-7)); ("s", PyNone)] ]
                  None _ _ "s" _ eq_refl eq_refl)).
Defined.

Lemma X10_nullable_witness :
  ∃ stats total st,
    analyze_collection_schema
      [ [("a", PyInt 5); ("s", PyStr "xy")]; [("a", PyInt64 (-7))] ]
      None = Returned (stats, total)
    ∧ Dict.get "s" stats = Some st
    ∧ (count st ≤ total)%nat.
Proof.
  eexists _, _, _. split; [reflexivity |]. split; [reflexivity |].
  refine (proj1 (proj2 (X10_nullable_means_missing
                          [ [("a", PyInt 5); ("s", PyStr "xy")];
                            [("a", PyInt64 (-7))] ]
                          None _ _ "s" _ _ eq_refl eq_refl))).
  repeat constructor; compute_done.
Defined.

Lemma X11_integer_column_witness :
  ∃ fields schema_map,
    infer_schema module_config
      [ [("a", PyInt 5)]; [("a", PyNone)]; [("a", PyInt64 4000000000)] ] None
    = Returned (fields, schema_map)
    ∧ "a" ∈ fields
    ∧ Dict.get "a" schema_map = Some "BIGINT".
Proof.
  assert (Forall (fun v => is_Some (observed_int v) ∨ v = PyNone)
            (observations "a"
               (sample None
                  [ [("a", PyInt 5)]; [("a", PyNone)];
                    [("a", PyInt64 4000000000)] ]))) as H1.
  { vm_compute. constructor; [left; eexists; reflexivity |].
    constructor; [right; reflexivity |].
    constructor; [left; eexists; reflexivity | constructor]. }
  assert (omap observed_int
            (observations "a"
               (sample None
                  [ [("a", PyInt 5)]; [("a", PyNone)];
                    [("a", PyInt64 4000000000)] ])) ≠ []) as H2.
  { vm_compute. discriminate. }
  destruct (X11_integer_column module_config
              [ [("a", PyInt 5)]; [("a", PyNone)]; [("a", PyInt64 4000000000)] ]
              None "a" H1 H2) as (fields & schema_map & Hs & Hk & Hty).
  exists fields, schema_map. split; [exact Hs |]. split; [exact Hk |].
  rewrite Hty. reflexivity.
Defined.

Lemma X12_string_column_witness :
  ∃ fields schema_map,
    infer_schema module_config
      [ [("s", PyStr "x")]; [("s", PyNone)]; [("s", PyStr "xyz")] ] None
    = Returned (fields, schema_map)
    ∧ "s" ∈ fields
    ∧ Dict.get "s" schema_map = Some "NVARCHAR(255)".
Proof.
  assert (Forall (fun v => (∃ s, v = PyStr s) ∨ v = PyNone)
            (observations "s"
               (sample None
                  [ [("s", PyStr "x")]; [("s", PyNone)];
                    [("s", PyStr "xyz")] ]))) as H1.
  { vm_compute. constructor; [left; eexists; reflexivity |].
    constructor; [right; reflexivity |].
    constructor; [left; eexists; reflexivity | constructor]. }
  assert (∃ s, PyStr s
               ∈ observations "s"
                   (sample None
                      [ [("s", PyStr "x")]; [("s", PyNone)];
                        [("s", PyStr "xyz")] ])) as H2.
  { exists "x". vm_compute. left. }
  destruct (X12_string_column module_config
              [ [("s", PyStr "x")]; [("s", PyNone)]; [("s", PyStr "xyz")] ]
              None "s" H1 H2) as (fields & schema_map & Hs & Hk & Hty).
  exists fields, schema_map. split; [exact Hs |]. split; [exact Hk |].
  rewrite Hty. reflexivity.
Defined.

Lemma X14_converted_classes_witness :
  isinstance
    (convert_value_for_sql (fun _ => "[]")
       (PyDecimal128 None (mkDecimal false 5 0))) CDecimal = true.
Proof.
  destruct (X14_converted_classes (fun _ => "[]")
              (PyDecimal128 None (mkDecimal false 5 0)))
    as (_ & _ & _ & H & _).
  apply H. reflexivity.
Defined.

Lemma X15_row_of_document_witness :
  row_values (fun _ => "[]") ["_id"; "a"]
    [("a", PyInt 1); ("extra", PyStr "dropped"); ("_id", PyObjectId "0a")]
  = row_values (fun _ => "[]") ["_id"; "a"]
      [("_id", PyObjectId "0a"); ("a", PyInt 1)].
Proof.
  destruct (X15_row_of_document (fun _ => "[]") ["_id"; "a"]
              [("_id", PyObjectId "0a"); ("a", PyInt 1)]) as (_ & _ & _ & H).
  apply H. intros c Hc.
  rewrite !elem_of_cons, elem_of_nil in Hc.
  destruct Hc as [-> | [-> | []]]; reflexivity.
Defined.

Lemma X18_empty_collection_witness :
  create_table_and_insert module_config (fun _ => "[]") (fun _ _ => false)
    [] "t" (Some 1000) []
  = ([mkEvent (Execute (build_create_table_statement module_config "t"
                          [("_id", "NVARCHAR(24)")]) []) false;
      mkEvent Commit false; mkEvent Commit false],
     Returned 0%nat).
Proof.
  destruct (X18_empty_collection module_config (fun _ => "[]")
              (fun _ _ => false) "t" (Some 1000)) as [_ H].
  apply H; reflexivity.
Defined.

Lemma X19_main_names_witness :
  main module_config (fun _ => "[]") (fun _ _ => false) (fun _ => [])
    " a; b;;" []
  = main module_config (fun _ => "[]") (fun _ _ => false) (fun _ => [])
      "a;b" [].
Proof.
  apply X19_main_names. vm_compute. reflexivity.
Defined.

Lemma X20_main_stops_witness :
  main module_config (fun _ => "[]") always_raises (fun _ => []) "a;b" []
  = ([mkEvent (Execute (build_create_table_statement module_config "a"
                          [("_id", "NVARCHAR(24)")]) []) true],
     Raised SinkError).
Proof.
  apply (X20_main_stops_at_first_error module_config (fun _ => "[]")
           always_raises (fun _ => []) "a;b" [] ["b"] "a" [] []);
    reflexivity.
Defined.

Lemma X21_main_runs_all_witness :
  (main module_config (fun _ => "[]") (fun _ _ => false) (fun _ => [])
     "a; b" []).2
  = Returned tt.
Proof.
  rewrite (X21_main_runs_all module_config (fun _ => "[]") (fun _ _ => false)
             (fun _ => []) "a; b" []); [reflexivity |].
  intros h c. reflexivity.
Defined.

Lemma X23_rows_inserted_witness :
  ∃ fields schema_map r trace,
    create_table_and_insert module_config (fun _ => "[]") raises_after_commit
      [ [("_id", PyInt 1); ("a", PyList [])]; [("_id", PyInt 2)] ] "t" None []
    = (mkEvent (Execute (build_create_table_statement module_config "t"
                           schema_map) []) r :: trace,
       Returned 2%nat)
    ∧ executed_params trace
      = row_values (fun _ => "[]") fields
          <$> [ [("_id", PyInt 1); ("a", PyList [])]; [("_id", PyInt 2)] ].
Proof.
  destruct (X23_rows_inserted_in_order module_config (fun _ => "[]")
              raises_after_commit
              [ [("_id", PyInt 1); ("a", PyList [])]; [("_id", PyInt 2)] ]
              "t" None)
    as (fields & schema_map & r & trace & outcome & m & _ & Hrun & _ & _ & Hret).
  assert (outcome = Returned 2%nat) as ->.
  { apply (f_equal snd) in Hrun. cbn [snd] in Hrun. rewrite <- Hrun.
    vm_compute. reflexivity. }
  exists fields, schema_map, r, trace. split; [exact Hrun |].
  exact (Hret 2%nat eq_refl).
Defined.
